(** * CarMatch: the matcher of [server.js]

    A shallow embedding of the search handler of the Car Matchmaker server
    ([pickYearForBudget], [affordabilityScore], [buildSearchLinks] and the
    [POST /search] route) together with the properties its specification
    states about it.

    Conventions of the model.
    - A JavaScript number is a [number]: [NaN], the two infinities, or a
      finite value kept as an exact rational.  Finite arithmetic is exact
      and the two zeros are one value; this decides every comparison, filter
      and order of the route.  Where the rounding of a sum matters, the
      scores are also given as the engine computes them, on binary64
      floats ([Binary64]).
    - [undefined] read from an array slot is [None].
    - Strings are byte strings; [toLowerCase] maps the ASCII letters.
    - The language built-ins that parse a string into a number and print a
      number are parameters of the request coercion ([Builtins]). *)

From Corelib Require PrimFloat.
From Stdlib Require Import ZArith QArith Qminmax Bool List Ascii String Lia.
From Stdlib Require Import Sorting.Sorted Sorting.Permutation Lqa.
From Stdlib Require Import DecimalString DecimalPos DecimalZ.
Import ListNotations.

Local Open Scope Z_scope.

(* ------------------------------------------------------------------ *)
(** ** JavaScript numbers *)

Module Num.

Inductive number : Type :=
| NaN
| NInf
| Fin (q : Q)
| PInf.

Definition ofZ (z : Z) : number := Fin (inject_Z z).

Definition isNaN (a : number) : bool :=
  match a with NaN => true | _ => false end.

(** [a < b] *)
Definition lt (a b : number) : bool :=
  match a, b with
  | NaN, _ | _, NaN => false
  | NInf, NInf => false
  | NInf, _ => true
  | Fin _, NInf => false
  | Fin p, Fin q => match p ?= q with Lt => true | _ => false end
  | Fin _, PInf => true
  | PInf, _ => false
  end%Q.

(** [a === b] on numbers *)
Definition seq (a b : number) : bool :=
  match a, b with
  | NInf, NInf => true
  | PInf, PInf => true
  | Fin p, Fin q => Qeq_bool p q
  | _, _ => false
  end.

(** [a <= b] *)
Definition le (a b : number) : bool := lt a b || seq a b.

(** [a > b] and [a >= b] *)
Definition gt (a b : number) : bool := lt b a.
Definition ge (a b : number) : bool := le b a.

Definition neg (a : number) : number :=
  match a with
  | NaN => NaN
  | NInf => PInf
  | Fin q => Fin (- q)
  | PInf => NInf
  end.

(** [a + b] *)
Definition add (a b : number) : number :=
  match a, b with
  | NaN, _ | _, NaN => NaN
  | PInf, NInf | NInf, PInf => NaN
  | PInf, _ | _, PInf => PInf
  | NInf, _ | _, NInf => NInf
  | Fin p, Fin q => Fin (p + q)
  end.

(** [a - b] *)
Definition sub (a b : number) : number := add a (neg b).

Definition sign (q : Q) : comparison := (q ?= 0)%Q.

(** [a * b] *)
Definition mul (a b : number) : number :=
  match a, b with
  | NaN, _ | _, NaN => NaN
  | Fin p, Fin q => Fin (p * q)
  | Fin p, PInf | PInf, Fin p =>
      match sign p with Eq => NaN | Lt => NInf | Gt => PInf end
  | Fin p, NInf | NInf, Fin p =>
      match sign p with Eq => NaN | Lt => PInf | Gt => NInf end
  | PInf, PInf | NInf, NInf => PInf
  | PInf, NInf | NInf, PInf => NInf
  end.

(** [Math.max(a, b)] *)
Definition max (a b : number) : number :=
  match a, b with
  | NaN, _ | _, NaN => NaN
  | _, _ => if lt a b then b else a
  end.

(** ToBoolean on a number: [NaN] and zero are falsy. *)
Definition truthy (a : number) : bool :=
  match a with
  | NaN => false
  | Fin q => negb (Qeq_bool q 0)
  | _ => true
  end.

(** [a || d] on numbers *)
Definition orDefault (a d : number) : number :=
  if truthy a then a else d.

(** Numbers at or above zero: finite non-negative values and [PInf]. *)
Definition nonneg (a : number) : Prop := le (Fin 0) a = true.

(** Same numeric value (the rationals are not kept in lowest terms). *)
Definition same (a b : number) : Prop :=
  match a, b with
  | NaN, NaN => True
  | NInf, NInf => True
  | PInf, PInf => True
  | Fin p, Fin q => (p == q)%Q
  | _, _ => False
  end.

End Num.

Abbreviation number := Num.number.
Abbreviation NaN := Num.NaN.
Abbreviation NInf := Num.NInf.
Abbreviation PInf := Num.PInf.
Abbreviation Fin := Num.Fin.

Declare Scope num_scope.
Delimit Scope num_scope with num.
Bind Scope num_scope with number.
Infix "+" := Num.add : num_scope.
Infix "-" := Num.sub : num_scope.
Infix "*" := Num.mul : num_scope.
Infix "<?" := Num.lt : num_scope.
Infix "<=?" := Num.le : num_scope.
Infix ">?" := Num.gt : num_scope.
Infix ">=?" := Num.ge : num_scope.
Infix "===" := Num.seq (at level 70, no associativity) : num_scope.

Local Open Scope string_scope.

(* ------------------------------------------------------------------ *)
(** ** Strings *)

Module Str.

Definition isUpper (c : ascii) : bool :=
  let n := nat_of_ascii c in (65 <=? n)%nat && (n <=? 90)%nat.

Definition lowerChar (c : ascii) : ascii :=
  if isUpper c then ascii_of_nat (nat_of_ascii c + 32) else c.

(** [s.toLowerCase()] *)
Fixpoint toLowerCase (s : string) : string :=
  match s with
  | EmptyString => EmptyString
  | String c r => String (lowerChar c) (toLowerCase r)
  end.

(** [!s]: only the empty string is falsy. *)
Definition isEmpty (s : string) : bool :=
  match s with EmptyString => true | _ => false end.

(** [arr.includes(s)] on an array of strings *)
Definition includes (arr : list string) (s : string) : bool :=
  existsb (String.eqb s) arr.

Definition isUnreserved (c : ascii) : bool :=
  let n := nat_of_ascii c in
  ((65 <=? n) && (n <=? 90) || (97 <=? n) && (n <=? 122) ||
   (48 <=? n) && (n <=? 57))%nat
  || existsb (Ascii.eqb c)
       ["-"; "_"; "."; "!"; "~"; "*"; "'"; "("; ")"]%char.

Definition hexDigit (n : nat) : ascii :=
  if (n <? 10)%nat then ascii_of_nat (48 + n) else ascii_of_nat (55 + n).

(** [encodeURIComponent(s)]: every byte outside the unreserved set is
    written as a percent sign and two upper-case hexadecimal digits. *)
Fixpoint encodeURIComponent (s : string) : string :=
  match s with
  | EmptyString => EmptyString
  | String c r =>
      if isUnreserved c then String c (encodeURIComponent r)
      else
        let n := nat_of_ascii c in
        String "%" (String (hexDigit (n / 16)) (String (hexDigit (n mod 16))
          (encodeURIComponent r)))
  end.

Definition ofZ (z : Z) : string := NilZero.string_of_int (Z.to_int z).

End Str.

(* ------------------------------------------------------------------ *)
(** ** Data model *)

Record CarRecord : Type := mkCar {
  model : string;
  minSeats : Z;
  types : list string;
  priceBands : list Q;
  yearsByBand : list Z
}.

Definition CARS : list CarRecord := [
  mkCar "Toyota Camry" 5 ["comfort"; "sedan"; "economy"] [12000; 18000; 25000; 35000]%Q [2015; 2018; 2021; 2024];
  mkCar "Honda Accord" 5 ["comfort"; "sedan"; "economy"] [12000; 18000; 26000; 36000]%Q [2015; 2018; 2021; 2024];
  mkCar "Kia Telluride" 7 ["comfort"; "suv"; "family"] [26000; 33000; 42000; 55000]%Q [2020; 2021; 2022; 2024];
  mkCar "Honda Odyssey" 7 ["minivan"; "family"; "comfort"] [16000; 23000; 32000; 45000]%Q [2016; 2018; 2021; 2024];
  mkCar "Mercedes-Benz S-Class" 5 ["luxury"; "sedan"] [28000; 40000; 65000; 110000]%Q [2014; 2017; 2020; 2023];
  mkCar "BMW 7 Series" 5 ["luxury"; "sedan"] [22000; 35000; 55000; 100000]%Q [2014; 2017; 2020; 2023];
  mkCar "Lexus LS" 5 ["luxury"; "sedan"; "comfort"] [20000; 30000; 45000; 80000]%Q [2013; 2016; 2019; 2023];
  mkCar "Cadillac Escalade" 7 ["luxury"; "suv"] [30000; 45000; 70000; 110000]%Q [2015; 2018; 2021; 2024];
  mkCar "Tesla Model S" 5 ["luxury"; "electric"; "sedan"] [26000; 38000; 55000; 90000]%Q [2014; 2017; 2020; 2023];
  mkCar "Tesla Model 3" 5 ["electric"; "comfort"; "sedan"] [18000; 26000; 35000; 55000]%Q [2019; 2020; 2021; 2024];
  mkCar "Toyota RAV4" 5 ["suv"; "comfort"; "economy"] [12000; 17000; 26000; 38000]%Q [2015; 2017; 2020; 2023];
  mkCar "Mazda MX-5 Miata" 2 ["sport"; "roadster"] [12000; 18000; 26000; 36000]%Q [2014; 2016; 2019; 2023];
  mkCar "Porsche 911" 4 ["sport"; "luxury"] [45000; 70000; 110000; 180000]%Q [2009; 2014; 2017; 2022];
  mkCar "Chevrolet Corvette" 2 ["sport"] [35000; 50000; 70000; 120000]%Q [2014; 2017; 2020; 2023];
  mkCar "BMW M3" 5 ["sport"; "sedan"] [30000; 45000; 65000; 90000]%Q [2015; 2018; 2021; 2023];
  mkCar "Ford Mustang" 4 ["sport"; "coupe"] [15000; 22000; 32000; 50000]%Q [2015; 2017; 2020; 2023]
].

Record Links : Type := mkLinks {
  google : string;
  autoscout : string;
  cars : string
}.

Module Result.
Record t : Type := make {
  model : string;
  year : option Z;
  seats : Z;
  typeMatches : list string;
  links : Links;
  score : number
}.
End Result.
Abbreviation MatchResult := Result.t.

Record Response : Type := mkResponse {
  results : list MatchResult;
  relaxed : bool
}.

(* ------------------------------------------------------------------ *)
(** ** The matcher *)

Local Open Scope num_scope.

(** A slot read from an array, coerced to a number where it is compared or
    subtracted: [undefined] becomes [NaN]. *)
Definition slot (o : option Q) : number :=
  match o with Some q => Fin q | None => NaN end.

(** The loop of [pickYearForBudget]; [n] is [i + 1], so the loop ends when
    [n] reaches zero and the function falls through to [yearsByBand[0]]. *)
Fixpoint pickYearLoop (priceBands : list Q) (yearsByBand : list Z)
    (budget : number) (n : nat) : option Z :=
  match n with
  | O => nth_error yearsByBand 0
  | S i =>
      if budget >=? slot (nth_error priceBands i)
      then nth_error yearsByBand i
      else pickYearLoop priceBands yearsByBand budget i
  end.

Definition pickYearForBudget (priceBands : list Q) (yearsByBand : list Z)
    (budget : number) : option Z :=
  pickYearLoop priceBands yearsByBand budget (List.length priceBands).

(** [arr[arr.length - 1]]: the index is -1 on the empty array, where the
    slot read is [undefined]. *)
Definition lastSlot (arr : list Q) : option Q :=
  match List.length arr with
  | O => None
  | S i => nth_error arr i
  end.

Definition affordabilityScore (priceBands : list Q) (budget : number)
    : number :=
  let minBand := slot (nth_error priceBands 0) in
  let maxBand := slot (lastSlot priceBands) in
  if (budget >=? minBand) && (budget <=? maxBand) then Fin 0
  else if budget <? minBand then minBand - budget
  else budget - maxBand.

(** A template slot holding a year: [undefined] prints as its name. *)
Definition yearText (year : option Z) : string :=
  match year with Some y => Str.ofZ y | None => "undefined" end.

Definition buildSearchLinks (year : option Z) (model : string) : Links :=
  let q := Str.encodeURIComponent (yearText year ++ " " ++ model) in
  {| google := "https://www.google.com/search?q=" ++ q ++ "+for+sale";
     autoscout :=
       "https://www.autoscout24.com/lst?sort=standard&desc=0&ustate=N%2CU&atype=C&powertype=kw&fregto="
       ++ yearText year ++ "&fregfrom=" ++ yearText year ++ "&q="
       ++ Str.encodeURIComponent model;
     cars := "https://www.cars.com/shopping/results/?q=" ++ q |}.

(** [arr.sort(cmp)]: the stable order for the comparator.  An element moves
    behind those the comparator puts strictly before it ([cmp x y > 0]); a
    comparator result of zero or [NaN] leaves the two in their order. *)
Section Sort.
Context {A : Type}.
Variable cmp : A -> A -> number.

Fixpoint insertBy (x : A) (l : list A) : list A :=
  match l with
  | [] => [x]
  | y :: l' => if cmp x y >? Fin 0 then y :: insertBy x l' else x :: l
  end.

Definition sortBy (l : list A) : list A := fold_right insertBy [] l.
End Sort.

(** [(a, b) => a.score - b.score] *)
Definition byScore (a b : MatchResult) : number :=
  Result.score a - Result.score b.

(** [arr.slice(0, 5)] *)
Definition top5 {A : Type} (l : list A) : list A := firstn 5 l.

Definition primarySeatFilter (wantSeats : number) (c : CarRecord) : bool :=
  (Num.ofZ (minSeats c) >=? wantSeats)
  || (Num.ofZ (minSeats c) === wantSeats)
  || (Num.ofZ (minSeats c) >? wantSeats - Fin 1).

Definition typeFilter (wantType : string) (c : CarRecord) : bool :=
  Str.isEmpty wantType || Str.includes (types c) wantType.

Definition relaxedSeatFilter (wantSeats : number) (c : CarRecord) : bool :=
  Num.ofZ (minSeats c) >=? wantSeats.

Definition seatPenalty (wantSeats : number) (c : CarRecord) : number :=
  Num.max (Fin 0) (wantSeats - Num.ofZ (minSeats c)) * Fin 5000.

Definition primaryResult (wantSeats wantBudget : number) (c : CarRecord)
    : MatchResult :=
  let year := pickYearForBudget (priceBands c) (yearsByBand c) wantBudget in
  let score := affordabilityScore (priceBands c) wantBudget
               + seatPenalty wantSeats c in
  let links := buildSearchLinks year (model c) in
  {| Result.model := model c;
     Result.year := year;
     Result.seats := minSeats c;
     Result.typeMatches := types c;
     Result.links := links;
     Result.score := score |}.

Definition relaxedResult (wantSeats wantBudget : number) (c : CarRecord)
    : MatchResult :=
  let year := pickYearForBudget (priceBands c) (yearsByBand c) wantBudget in
  let score := affordabilityScore (priceBands c) wantBudget
               + seatPenalty wantSeats c + Fin 10000 in
  let links := buildSearchLinks year (model c) in
  {| Result.model := model c;
     Result.year := year;
     Result.seats := minSeats c;
     Result.typeMatches := types c;
     Result.links := links;
     Result.score := score |}.

(** The two chains over the catalog. *)
Definition primaryPass (catalog : list CarRecord)
    (wantSeats wantBudget : number) (wantType : string) : list MatchResult :=
  top5 (sortBy byScore
    (map (primaryResult wantSeats wantBudget)
      (filter (typeFilter wantType)
        (filter (primarySeatFilter wantSeats) catalog)))).

Definition relaxedPass (catalog : list CarRecord)
    (wantSeats wantBudget : number) : list MatchResult :=
  top5 (sortBy byScore
    (map (relaxedResult wantSeats wantBudget)
      (filter (relaxedSeatFilter wantSeats) catalog))).

(** The body of the [/search] route once [Number(seats)], [Number(budget)]
    and [String(type || "")] have been evaluated, over a given catalog. *)
Definition searchOver (catalog : list CarRecord) (seats budget : number)
    (type : string) : Response :=
  let wantSeats := Num.orDefault seats (Fin 4) in
  let wantBudget := Num.orDefault budget (Fin 20000) in
  let wantType := Str.toLowerCase type in
  let matches := primaryPass catalog wantSeats wantBudget wantType in
  if Nat.eqb (List.length matches) 0 then
    let relaxed := relaxedPass catalog wantSeats wantBudget in
    {| results := relaxed; relaxed := true |}
  else {| results := matches; relaxed := false |}.

Definition search : number -> number -> string -> Response :=
  searchOver CARS.

(* ------------------------------------------------------------------ *)
(** ** The scores in binary64 *)

(** The arithmetic of the scores on the floats of the engine: the same
    expressions as above, each operation rounded as binary64 rounds it. *)
Module Binary64.
Import PrimFloat.

Definition slot (o : option float) : float :=
  match o with Some x => x | None => PrimFloat.nan end.

Definition lastSlot (arr : list float) : option float :=
  match List.length arr with
  | O => None
  | S i => nth_error arr i
  end.

Definition affordabilityScore (priceBands : list float) (budget : float)
    : float :=
  let minBand := slot (nth_error priceBands 0) in
  let maxBand := slot (lastSlot priceBands) in
  if PrimFloat.leb minBand budget && PrimFloat.leb budget maxBand
  then PrimFloat.zero
  else if PrimFloat.ltb budget minBand then PrimFloat.sub minBand budget
  else PrimFloat.sub budget maxBand.

(** [Math.max(0, x)] *)
Definition max0 (x : float) : float :=
  if PrimFloat.is_nan x then PrimFloat.nan
  else if PrimFloat.ltb PrimFloat.zero x then x else PrimFloat.zero.

(** The score of the primary pass and the score of the relaxed pass. *)
Definition primaryScore (priceBands : list float)
    (wantBudget wantSeats minSeats : float) : float :=
  PrimFloat.add (affordabilityScore priceBands wantBudget)
    (PrimFloat.mul (max0 (PrimFloat.sub wantSeats minSeats)) 5000%float).

Definition relaxedScore (priceBands : list float)
    (wantBudget wantSeats minSeats : float) : float :=
  PrimFloat.add
    (PrimFloat.add (affordabilityScore priceBands wantBudget)
       (PrimFloat.mul (max0 (PrimFloat.sub wantSeats minSeats)) 5000%float))
    10000%float.

End Binary64.

(* ------------------------------------------------------------------ *)
(** ** The request: JSON values and their coercions *)

(** What [express.json()] hands to the route: a parsed JSON value, or
    [undefined] where the body or a member is absent.  An object keeps its
    members in the order they were written. *)
#[warnings="-register-all"] Inductive value : Type :=
| VUndefined
| VNull
| VBool (b : bool)
| VNum (n : number)
| VStr (s : string)
| VArr (elems : list value)
| VObj (members : list (string * value)).

Inductive error : Type :=
| TypeError.

(** Completion of an evaluation: a value, or a thrown error. *)
Inductive completion (A : Type) : Type :=
| Normal (a : A)
| Throw (e : error).
Arguments Normal {A} a.
Arguments Throw {A} e.

Definition bind {A B : Type} (c : completion A) (k : A -> completion B)
    : completion B :=
  match c with
  | Normal a => k a
  | Throw e => Throw e
  end.

Notation "x <- c ;; k" := (bind c (fun x => k))
  (at level 61, c at next level, right associativity).

(** The two conversions between strings and numbers belong to the language,
    not to the server. *)
Class Builtins : Type := {
  StringToNumber : string -> number;
  NumberToString : number -> string
}.

(** [obj.hasOwnProperty(key)] on a parsed object *)
Definition hasOwn (key : string) (members : list (string * value)) : bool :=
  existsb (fun kv => String.eqb (fst kv) key) members.

(** [obj[key]] on a parsed object: of two members with one name the parser
    keeps the later one; a name not present reads [undefined] (none of the
    names the route reads is inherited). *)
Fixpoint getOwn (key : string) (members : list (string * value)) : value :=
  match members with
  | [] => VUndefined
  | (k, v) :: rest =>
      if hasOwn key rest then getOwn key rest
      else if String.eqb k key then v else VUndefined
  end.

(** ToBoolean *)
Definition truthy (v : value) : bool :=
  match v with
  | VUndefined | VNull => false
  | VBool b => b
  | VNum n => Num.truthy n
  | VStr s => negb (Str.isEmpty s)
  | VArr _ | VObj _ => true
  end.

(** [parts.join(",")] *)
Fixpoint joinComma (parts : list string) : string :=
  match parts with
  | [] => ""
  | [p] => p
  | p :: rest => p ++ "," ++ joinComma rest
  end.

Fixpoint sequence {A : Type} (cs : list (completion A))
    : completion (list A) :=
  match cs with
  | [] => Normal []
  | c :: rest => a <- c ;; r <- sequence rest ;; Normal (a :: r)
  end.

Section Coercions.
Context {B : Builtins}.

(** ToString.  An object is first converted to a primitive: a parsed
    plain object inherits a [toString] that answers "[object Object]",
    unless a member of that name (never a function) hides it, and then no
    conversion is left and a TypeError is thrown; an array joins the
    conversions of its elements, [null] and [undefined] counting as
    empty. *)
Fixpoint ToString (v : value) : completion string :=
  match v with
  | VUndefined => Normal "undefined"
  | VNull => Normal "null"
  | VBool true => Normal "true"
  | VBool false => Normal "false"
  | VNum n => Normal (NumberToString n)
  | VStr s => Normal s
  | VArr elems =>
      parts <- sequence (map (fun e =>
                 match e with
                 | VUndefined | VNull => Normal ""
                 | _ => ToString e
                 end) elems) ;;
      Normal (joinComma parts)
  | VObj members =>
      if hasOwn "toString" members then Throw TypeError
      else Normal "[object Object]"
  end.

(** [Number(v)] *)
Definition ToNumber (v : value) : completion number :=
  match v with
  | VUndefined => Normal NaN
  | VNull => Normal (Fin 0)
  | VBool true => Normal (Fin 1)
  | VBool false => Normal (Fin 0)
  | VNum n => Normal n
  | VStr s => Normal (StringToNumber s)
  | VArr _ | VObj _ => s <- ToString v ;; Normal (StringToNumber s)
  end.

(** [a || b] *)
Definition orElse (a b : value) : value := if truthy a then a else b.

(** [body.name] after [req.body || {}]: only an object has members. *)
Definition member (body : value) (name : string) : value :=
  match orElse body (VObj []) with
  | VObj members => getOwn name members
  | _ => VUndefined
  end.

(** The [/search] route over a catalog: the answer sent, or the error
    thrown out of the handler. *)
Definition searchRouteOver (catalog : list CarRecord) (body : value)
    : completion Response :=
  let seats := member body "seats" in
  let budget := member body "budget" in
  let type := member body "type" in
  nSeats <- ToNumber seats ;;
  nBudget <- ToNumber budget ;;
  sType <- ToString (orElse type (VStr "")) ;;
  Normal (searchOver catalog nSeats nBudget sType).

Definition searchRoute : value -> completion Response :=
  searchRouteOver CARS.

End Coercions.

(* ------------------------------------------------------------------ *)
(** ** The [/image] route *)

(** The argument of [images.generate]. *)
Record GenerateParams : Type := mkParams {
  imageModel : string;
  prompt : string;
  size : string
}.

(** What awaiting [images.generate] gives: the value it resolved with, or
    its rejection, kept as the text [String(err)] makes of the reason. *)
Inductive generated : Type :=
| Resolved (img : value)
| Rejected (shown : string).

Definition ImageClient : Type := GenerateParams -> generated.

(** What the [catch] of the route received; the reply carries
    [String(err)] of it. *)
Inductive caught : Type :=
| NoImageReturned
| EngineTypeError
| ClientRejected (shown : string).

(** The replies of the route: 501 with its fixed message, 200 with a data
    URL, 500 with the error caught. *)
Inductive ImageReply : Type :=
| Unavailable
| Image (dataUrl : string)
| Failed (err : caught).

Definition status (r : ImageReply) : Z :=
  match r with
  | Unavailable => 501
  | Image _ => 200
  | Failed _ => 500
  end.

(** [v.name], for a name that is no index and is not inherited: the read
    throws on [undefined] and [null]. *)
Definition readMember (v : value) (name : string) : completion value :=
  match v with
  | VUndefined | VNull => Throw TypeError
  | VObj members => Normal (getOwn name members)
  | _ => Normal VUndefined
  end.

(** [v?.[0]] *)
Definition firstOf (v : value) : value :=
  match v with
  | VObj members => getOwn "0" members
  | VArr elems => nth 0 elems VUndefined
  | VStr (String c _) => VStr (String c EmptyString)
  | _ => VUndefined
  end.

(** [v?.name], for a name that is no index and is not inherited. *)
Definition optMember (v : value) (name : string) : value :=
  match v with
  | VObj members => getOwn name members
  | _ => VUndefined
  end.

Section ImageRoute.
Context {B : Builtins}.

(** The [try] block once the client has answered. *)
Definition imageReply (answer : generated) : ImageReply :=
  match answer with
  | Rejected shown => Failed (ClientRejected shown)
  | Resolved img =>
      match readMember img "data" with
      | Throw _ => Failed EngineTypeError
      | Normal data =>
          let b64 := optMember (firstOf data) "b64_json" in
          if truthy b64 then
            match ToString b64 with
            | Normal s => Image ("data:image/png;base64," ++ s)
            | Throw _ => Failed EngineTypeError
            end
          else Failed NoImageReturned
      end
  end.

(** The [/image] route; [openaiClient] is [None] where the source has
    [null].  The prompt is built before the [try], so a conversion that
    throws there leaves the handler. *)
Definition imageRoute (openaiClient : option ImageClient) (body : value)
    : completion ImageReply :=
  match openaiClient with
  | None => Normal Unavailable
  | Some client =>
      let year := member body "year" in
      let model := member body "model" in
      sYear <- ToString year ;;
      sModel <- ToString model ;;
      let prompt :=
        "Photorealistic dealership-style exterior photo of a " ++ sYear
        ++ " " ++ sModel
        ++ ", parked, clean background, natural lighting." in
      Normal (imageReply (client {| imageModel := "gpt-image-1";
                                    prompt := prompt;
                                    size := "1024x1024" |}))
  end.

End ImageRoute.

(* ------------------------------------------------------------------ *)
(** ** Vocabulary of the specification *)

(** The invariant of the data model on a record. *)
Definition recordInvariant (c : CarRecord) : Prop :=
  StronglySorted Qlt (priceBands c)
  /\ List.length (priceBands c) = 4%nat
  /\ List.length (yearsByBand c) = List.length (priceBands c).

(** The band at index [i] is within the budget. *)
Definition affordable (priceBands : list Q) (budget : number) (i : nat)
    : bool :=
  budget >=? slot (nth_error priceBands i).

(** Least and greatest element of the non-empty sequence [x :: xs]. *)
Fixpoint minimum (x : Q) (xs : list Q) : Q :=
  match xs with
  | [] => x
  | y :: ys => Qmin x (minimum y ys)
  end.

Fixpoint maximum (x : Q) (xs : list Q) : Q :=
  match xs with
  | [] => x
  | y :: ys => Qmax x (maximum y ys)
  end.

(** Results in non-decreasing order of score. *)
Definition scoreLe (a b : MatchResult) : Prop :=
  (Result.score a <=? Result.score b) = true.

Definition scored (r : MatchResult) : Prop :=
  Num.isNaN (Result.score r) = false.

(** A result with a fixed penalty added to its score. *)
Definition withPenalty (p : number) (r : MatchResult) : MatchResult :=
  {| Result.model := Result.model r;
     Result.year := Result.year r;
     Result.seats := Result.seats r;
     Result.typeMatches := Result.typeMatches r;
     Result.links := Result.links r;
     Result.score := Result.score r + p |}.

(** A value that converts to a primitive: no object with a member named
    [toString] is met, directly or among the elements of arrays. *)
Fixpoint coercible (v : value) : bool :=
  match v with
  | VArr elems => forallb coercible elems
  | VObj members => negb (hasOwn "toString" members)
  | _ => true
  end.

(** The request [{seats, budget, type}]. *)
Definition request (seats budget type : value) : value :=
  VObj [("seats", seats); ("budget", budget); ("type", type)].

(** An instance to run the route on requests whose members are numbers and
    strings already, where neither conversion is called: it reads no string
    as a number and prints every number the same. *)
Definition noConversion : Builtins :=
  {| StringToNumber := fun _ => NaN;
     NumberToString := fun _ => "NaN" |}.

(** The index whose year the loop of [pickYearForBudget] returns. *)
Fixpoint pickIndexLoop (priceBands : list Q) (budget : number) (n : nat)
    : nat :=
  match n with
  | O => O
  | S i => if affordable priceBands budget i then i
           else pickIndexLoop priceBands budget i
  end.

(** The characters of a string. *)
Fixpoint chars (s : string) : list ascii :=
  match s with
  | EmptyString => []
  | String c r => c :: chars r
  end.

(** The value of a hexadecimal digit written by [encodeURIComponent]. *)
Definition hexValue (c : ascii) : nat :=
  let n := nat_of_ascii c in
  if (n <? 58)%nat then (n - 48)%nat else (n - 55)%nat.

(** A character of a printed integer: the minus sign or a digit. *)
Definition signOrDigit (c : ascii) : bool :=
  existsb (Ascii.eqb c)
    ["-"; "0"; "1"; "2"; "3"; "4"; "5"; "6"; "7"; "8"; "9"]%char.

(** A character [encodeURIComponent] can write: an unreserved one, or the
    percent sign. *)
Definition urlSafe (c : ascii) : bool :=
  Str.isUnreserved c || Ascii.eqb c "%"%char.

(* ------------------------------------------------------------------ *)
(** ** Facts about numbers *)

Module NumFacts.

Lemma lt_Fin (p q : Q) : (Fin p <? Fin q) = true <-> (p < q)%Q.
Proof.
  simpl. rewrite Qlt_alt. destruct (p ?= q)%Q; split; congruence.
Qed.

Lemma seq_Fin (p q : Q) : (Fin p === Fin q) = true <-> (p == q)%Q.
Proof. simpl. apply Qeq_bool_iff. Qed.

Lemma le_Fin (p q : Q) : (Fin p <=? Fin q) = true <-> (p <= q)%Q.
Proof.
  unfold Num.le. rewrite orb_true_iff, lt_Fin, seq_Fin.
  rewrite Qle_lteq. tauto.
Qed.

Lemma lt_Fin_false (p q : Q) : (Fin p <? Fin q) = false <-> (q <= p)%Q.
Proof.
  rewrite <- not_true_iff_false, lt_Fin. split.
  - apply Qnot_lt_le.
  - apply Qle_not_lt.
Qed.

Lemma le_Fin_false (p q : Q) : (Fin p <=? Fin q) = false <-> (q < p)%Q.
Proof.
  rewrite <- not_true_iff_false, le_Fin. split.
  - apply Qnot_le_lt.
  - apply Qlt_not_le.
Qed.

(** The comparator test of the sort is a plain comparison of the scores,
    whatever the two numbers are. *)
Lemma sub_gt_zero (a b : number) : (a - b >? Fin 0) = (b <? a).
Proof.
  destruct a as [| |p|], b as [| |q|]; try reflexivity.
  apply eq_true_iff_eq. unfold Num.gt, Num.sub. cbn [Num.neg Num.add].
  rewrite !lt_Fin. split; intro H.
  - apply (Qplus_lt_l _ _ (- q)). now rewrite Qplus_opp_r.
  - apply (Qplus_lt_l _ _ (- q)) in H. now rewrite Qplus_opp_r in H.
Qed.

Lemma le_refl (a : number) : Num.isNaN a = false -> (a <=? a) = true.
Proof.
  destruct a as [| |p|]; try discriminate; intros _; try reflexivity.
  apply le_Fin, Qle_refl.
Qed.

Lemma lt_le (a b : number) : (a <? b) = true -> (a <=? b) = true.
Proof. unfold Num.le. intros ->. reflexivity. Qed.

(** On numbers other than [NaN] the order is total. *)
Lemma not_lt_le (a b : number) :
  Num.isNaN a = false -> Num.isNaN b = false ->
  (b <? a) = false -> (a <=? b) = true.
Proof.
  destruct a as [| |p|], b as [| |q|]; intros Ha Hb H;
    try discriminate; try reflexivity.
  apply le_Fin. now apply lt_Fin_false.
Qed.

Lemma le_trans (a b c : number) :
  (a <=? b) = true -> (b <=? c) = true -> (a <=? c) = true.
Proof.
  destruct a as [| |p|], b as [| |q|], c as [| |r|];
    try reflexivity; try discriminate.
  rewrite !le_Fin. apply Qle_trans.
Qed.

Lemma le_not_NaN (a b : number) :
  (a <=? b) = true -> Num.isNaN a = false /\ Num.isNaN b = false.
Proof. destruct a, b; simpl; try discriminate; auto. Qed.

Lemma truthy_not_NaN (a : number) :
  Num.truthy a = true -> Num.isNaN a = false.
Proof. destruct a; simpl; congruence. Qed.

Lemma orDefault_not_NaN (a : number) (d : Q) :
  Num.isNaN (Num.orDefault a (Fin d)) = false.
Proof.
  unfold Num.orDefault. destruct (Num.truthy a) eqn:E.
  - now apply truthy_not_NaN.
  - reflexivity.
Qed.

Lemma nonneg_add (a b : number) : Num.nonneg a -> Num.nonneg b -> Num.nonneg (a + b).
Proof.
  unfold Num.nonneg.
  destruct a as [| |p|], b as [| |q|]; try reflexivity; try discriminate.
  rewrite !le_Fin. intros Hp Hq. cbn [Num.add]. apply le_Fin.
  rewrite <- (Qplus_0_l 0). now apply Qplus_le_compat.
Qed.

Lemma nonneg_not_NaN (a : number) : Num.nonneg a -> Num.isNaN a = false.
Proof. intro H. now apply le_not_NaN in H. Qed.

Lemma nonneg_max_mul (x : number) (k : Q) :
  Num.isNaN x = false -> (0 < k)%Q ->
  Num.nonneg (Num.max (Fin 0) x * Fin k).
Proof.
  unfold Num.nonneg. intros Hx Hk.
  destruct x as [| |p|]; try discriminate.
  - reflexivity.
  - unfold Num.max. destruct (Fin 0 <? Fin p) eqn:E.
    + apply lt_Fin in E. cbn [Num.mul]. apply le_Fin.
      apply Qmult_le_0_compat; now apply Qlt_le_weak.
    + cbn [Num.mul]. apply le_Fin. rewrite Qmult_0_l. apply Qle_refl.
  - cbn [Num.max Num.lt Num.mul]. unfold Num.sign.
    apply Qgt_alt in Hk. rewrite Hk. reflexivity.
Qed.

Lemma same_refl (a : number) : Num.same a a.
Proof. destruct a; simpl; auto. apply Qeq_refl. Qed.


Lemma same_sym (a b : number) : Num.same a b -> Num.same b a.
Proof. destruct a, b; simpl; auto. apply Qeq_sym. Qed.

Lemma lt_same (a a' b b' : number) :
  Num.same a a' -> Num.same b b' -> (a <? b) = (a' <? b').
Proof.
  destruct a as [| |p|], a' as [| |p'|]; try contradiction;
    destruct b as [| |q|], b' as [| |q'|]; try contradiction;
    try reflexivity.
  simpl Num.same. intros Hp Hq. apply eq_true_iff_eq.
  rewrite !lt_Fin, Hp, Hq. reflexivity.
Qed.

Lemma seq_same (a a' b b' : number) :
  Num.same a a' -> Num.same b b' -> (a === b) = (a' === b').
Proof.
  destruct a as [| |p|], a' as [| |p'|]; try contradiction;
    destruct b as [| |q|], b' as [| |q'|]; try contradiction;
    try reflexivity.
  simpl Num.same. intros Hp Hq. apply eq_true_iff_eq.
  rewrite !seq_Fin, Hp, Hq. reflexivity.
Qed.

Lemma le_same (a a' b b' : number) :
  Num.same a a' -> Num.same b b' -> (a <=? b) = (a' <=? b').
Proof.
  intros Ha Hb. unfold Num.le.
  now rewrite (lt_same a a' b b'), (seq_same a a' b b').
Qed.

Lemma sub_same (a a' b b' : number) :
  Num.same a a' -> Num.same b b' -> Num.same (a - b) (a' - b').
Proof.
  destruct a as [| |p|], a' as [| |p'|]; try contradiction;
    destruct b as [| |q|], b' as [| |q'|]; try contradiction;
    simpl; auto.
  intros Hp Hq. now rewrite Hp, Hq.
Qed.


Lemma compare_inject_Z (a b : Z) :
  (inject_Z a ?= inject_Z b)%Q = (a ?= b)%Z.
Proof. unfold Qcompare. simpl. now rewrite !Z.mul_1_r. Qed.

Lemma lt_ofZ (a b : Z) : (Num.ofZ a <? Num.ofZ b) = (a <? b)%Z.
Proof.
  unfold Num.ofZ. cbn [Num.lt]. rewrite compare_inject_Z.
  unfold Z.ltb. reflexivity.
Qed.

Lemma seq_ofZ (a b : Z) : (Num.ofZ a === Num.ofZ b) = (a =? b)%Z.
Proof.
  unfold Num.ofZ. cbn [Num.seq]. unfold Qeq_bool. simpl.
  now rewrite !Z.mul_1_r.
Qed.

Lemma le_ofZ (a b : Z) : (Num.ofZ a <=? Num.ofZ b) = (a <=? b)%Z.
Proof.
  unfold Num.le. rewrite lt_ofZ, seq_ofZ.
  apply eq_true_iff_eq.
  rewrite orb_true_iff, Z.ltb_lt, Z.eqb_eq, Z.leb_le. lia.
Qed.

End NumFacts.

(* ------------------------------------------------------------------ *)
(** ** The seat filter of the primary pass *)

Lemma orDefault_ofZ (z d : Z) :
  d <> 0 ->
  Num.orDefault (Num.ofZ z) (Num.ofZ d) = Num.ofZ (if (z =? 0)%Z then d else z).
Proof.
  intros _. unfold Num.orDefault, Num.ofZ, Num.truthy, Qeq_bool. simpl.
  rewrite Z.mul_1_r. destruct (Z.eqb_spec z 0) as [->|Hz]; simpl.
  - reflexivity.
  - reflexivity.
Qed.

Lemma gt_pred_ofZ (m z : Z) :
  (Num.ofZ m >? Num.ofZ z - Fin 1) = (z <=? m)%Z.
Proof.
  apply eq_true_iff_eq. unfold Num.gt, Num.sub, Num.ofZ.
  cbn [Num.neg Num.add]. rewrite NumFacts.lt_Fin, Z.leb_le.
  unfold Qlt. simpl. lia.
Qed.

Lemma primarySeatFilter_ofZ (c : CarRecord) (z : Z) :
  primarySeatFilter (Num.ofZ z) c = (Num.ofZ (minSeats c) >=? Num.ofZ z).
Proof.
  unfold primarySeatFilter, Num.ge.
  rewrite gt_pred_ofZ, NumFacts.le_ofZ, NumFacts.seq_ofZ.
  destruct (Z.leb_spec z (minSeats c)) as [H|H]; simpl.
  - reflexivity.
  - destruct (Z.eqb_spec (minSeats c) z); [lia | reflexivity].
Qed.

(** On a finite number of seats the three conditions together are the third
    one alone: the record needs more than [seats - 1] seats. *)
Lemma primarySeatFilter_Fin (c : CarRecord) (q : Q) :
  primarySeatFilter (Fin q) c = true <-> (q - 1 < inject_Z (minSeats c))%Q.
Proof.
  unfold primarySeatFilter, Num.ge, Num.gt, Num.ofZ, Num.sub.
  cbn [Num.neg Num.add].
  rewrite !orb_true_iff, NumFacts.le_Fin, NumFacts.seq_Fin, NumFacts.lt_Fin.
  change (q + - (1))%Q with (q - 1)%Q.
  assert (Hlt : (q - 1 < q)%Q).
  { rewrite <- (Qplus_0_r q) at 2. unfold Qminus.
    apply Qplus_lt_r. reflexivity. }
  split.
  - intros [[Hge | Heq] | Hgt].
    + eapply Qlt_le_trans; eassumption.
    + rewrite Heq. exact Hlt.
    + exact Hgt.
  - auto.
Qed.

(** C1, as the source has it: for every catalog record and every integer
    number of seats asked for (zero falling back to 4, as the route does),
    the record passes the three-condition seat filter of the primary pass
    exactly when its [minSeats] is at least the seats wanted. *)
Theorem C1_seat_filter_integer_seats (c : CarRecord) (z : Z) :
  let wantSeats := Num.orDefault (Num.ofZ z) (Fin 4) in
  primarySeatFilter wantSeats c = true
  <-> (Num.ofZ (minSeats c) >=? wantSeats) = true.
Proof.
  intro wantSeats. subst wantSeats.
  change (Fin 4) with (Num.ofZ 4).
  rewrite orDefault_ofZ by discriminate.
  now rewrite primarySeatFilter_ofZ.
Qed.

(** C1 fails off the integers: asked for four and a half seats, the route
    keeps the four-seat Porsche 911 in the primary pass (4 > 4.5 - 1),
    although 4 >= 4.5 is false. *)
Lemma C1_seat_filter_fractional_seats :
  let c := mkCar "Porsche 911" 4 ["sport"; "luxury"]
             [45000; 70000; 110000; 180000]%Q [2009; 2014; 2017; 2022] in
  let wantSeats := Num.orDefault (Fin (9 # 2)) (Fin 4) in
  In c CARS
  /\ wantSeats = Fin (9 # 2)
  /\ primarySeatFilter wantSeats c = true
  /\ (Num.ofZ (minSeats c) >=? wantSeats) = false.
Proof.
  cbv zeta. repeat split.
  unfold CARS. do 12 right. left. reflexivity.
Qed.

(* ------------------------------------------------------------------ *)
(** ** The catalog *)

(** C9: every record of [CARS] has four strictly ascending price bands and
    as many years as price bands. *)
Theorem C9_catalog_invariant : Forall recordInvariant CARS.
Proof.
  unfold CARS.
  repeat (apply Forall_cons || apply Forall_nil);
    (split; [ | split; reflexivity ]); simpl;
    repeat (apply SSorted_cons || apply SSorted_nil
            || apply Forall_cons || apply Forall_nil);
    reflexivity.
Qed.

Lemma catalog_bands_nonempty :
  Forall (fun c => priceBands c <> []) CARS.
Proof.
  unfold CARS. repeat (apply Forall_cons || apply Forall_nil); discriminate.
Qed.

(* ------------------------------------------------------------------ *)
(** ** [pickYearForBudget] *)

Section PickYear.
Variables (priceBands : list Q) (yearsByBand : list Z) (budget : number).

Lemma pickYearLoop_found (n i : nat) :
  (i < n)%nat ->
  affordable priceBands budget i = true ->
  (forall j, (i < j < n)%nat -> affordable priceBands budget j = false) ->
  pickYearLoop priceBands yearsByBand budget n = nth_error yearsByBand i.
Proof.
  unfold affordable. induction n as [|n IH]; intros Hi Hyes Hno.
  - lia.
  - simpl. destruct (Nat.eq_dec i n) as [->|Hne].
    + now rewrite Hyes.
    + rewrite (Hno n) by lia. apply IH; [lia | assumption | ].
      intros j Hj. apply Hno. lia.
Qed.

Lemma pickYearLoop_none (n : nat) :
  (forall j, (j < n)%nat -> affordable priceBands budget j = false) ->
  pickYearLoop priceBands yearsByBand budget n = nth_error yearsByBand 0.
Proof.
  unfold affordable. induction n as [|n IH]; intros Hno.
  - reflexivity.
  - simpl. rewrite (Hno n) by lia. apply IH. intros j Hj. apply Hno. lia.
Qed.

Lemma pickYearLoop_In (n : nat) :
  (n <= List.length yearsByBand)%nat ->
  yearsByBand <> [] ->
  exists y, pickYearLoop priceBands yearsByBand budget n = Some y
            /\ In y yearsByBand.
Proof.
  intros Hn Hne. induction n as [|n IH].
  - simpl. destruct yearsByBand as [|y0 ys]; [congruence | ].
    exists y0. split; [reflexivity | now left].
  - simpl. destruct (budget >=? slot (nth_error priceBands n)).
    + destruct (nth_error yearsByBand n) as [y|] eqn:E.
      * exists y. split; [reflexivity | ]. eapply nth_error_In; eassumption.
      * apply nth_error_None in E. lia.
    + apply IH. lia.
Qed.

End PickYear.


Lemma pickYearLoop_index (priceBands : list Q) (yearsByBand : list Z)
    (budget : number) (n : nat) :
  pickYearLoop priceBands yearsByBand budget n
  = nth_error yearsByBand (pickIndexLoop priceBands budget n).
Proof.
  induction n as [|n IH]; [reflexivity | ].
  cbn [pickYearLoop pickIndexLoop]. unfold affordable at 1.
  destruct (budget >=? slot (nth_error priceBands n)); [reflexivity | exact IH].
Qed.

Lemma pickIndexLoop_le (priceBands : list Q) (budget : number) (n : nat) :
  (pickIndexLoop priceBands budget n <= pred n)%nat.
Proof.
  induction n as [|n IH]; [reflexivity | ].
  cbn [pickIndexLoop pred].
  destruct (affordable priceBands budget n); lia.
Qed.

Lemma recordInvariant_nonempty (c : CarRecord) :
  recordInvariant c ->
  priceBands c <> [] /\ yearsByBand c <> []
  /\ List.length (yearsByBand c) = List.length (priceBands c).
Proof.
  intros (_ & Hlen & Hsame). repeat split; [ | | exact Hsame ].
  - intro E. rewrite E in Hlen. discriminate.
  - intro E. rewrite Hlen, E in Hsame. discriminate.
Qed.

(** C2: for every sequence of price bands with as many years and every
    budget, the function returns the year at the largest index whose band
    is at most the budget, and the first year when the budget is below
    every band; it always returns a slot of [yearsByBand] (it is a total
    function of its arguments).  Consequently, for every catalog that keeps
    the invariant of the data model and every budget, the year returned for
    a record is an element of its [yearsByBand]; so it is as soon as there
    is a band at all. *)
Theorem C2_pickYear_largest_affordable (bands : list Q)
    (years : list Z) (budget : number) :
  List.length years = List.length bands ->
  (forall i p,
      nth_error bands i = Some p ->
      (Fin p <=? budget) = true ->
      (forall j q, (i < j)%nat -> nth_error bands j = Some q ->
                   (Fin q <=? budget) = false) ->
      pickYearForBudget bands years budget
      = nth_error years i)
  /\ ((forall j q, nth_error bands j = Some q ->
                   (budget <? Fin q) = true) ->
      pickYearForBudget bands years budget
      = nth_error years 0)
  /\ (exists i, (i < List.length bands \/ i = 0)%nat
                /\ pickYearForBudget bands years budget
                   = nth_error years i)
  /\ (forall catalog, Forall recordInvariant catalog ->
        Forall (fun c => forall b,
                  exists y, pickYearForBudget (priceBands c) (yearsByBand c) b
                            = Some y
                            /\ In y (yearsByBand c)) catalog)
  /\ (bands <> [] ->
      exists y, pickYearForBudget bands years budget = Some y
                /\ In y years).
Proof.
  intros Hlen. unfold pickYearForBudget.
  split; [ | split; [ | split; [ | split ] ] ].
  - intros i p Hi Hyes Hno. apply pickYearLoop_found.
    + apply nth_error_Some. congruence.
    + unfold affordable. now rewrite Hi.
    + intros j [Hij Hj]. unfold affordable.
      destruct (nth_error bands j) as [q|] eqn:E.
      * exact (Hno j q Hij E).
      * apply nth_error_None in E. lia.
  - intros Hbelow. apply pickYearLoop_none. intros j Hj. unfold affordable.
    destruct (nth_error bands j) as [q|] eqn:E.
    + specialize (Hbelow j q E). simpl. unfold Num.ge.
      destruct budget as [| |b|]; try discriminate; try reflexivity.
      apply NumFacts.le_Fin_false. now apply NumFacts.lt_Fin.
    + apply nth_error_None in E. lia.
  - exists (pickIndexLoop bands budget (List.length bands)).
    split; [ | apply pickYearLoop_index ].
    pose proof (pickIndexLoop_le bands budget (List.length bands)).
    destruct (List.length bands); [right | left]; simpl in *; lia.
  - intros catalog Hinv. eapply Forall_impl; [ | exact Hinv ].
    intros c Hc b. destruct (recordInvariant_nonempty c Hc) as (_ & Hy & Hl).
    apply pickYearLoop_In; [lia | exact Hy].
  - intro Hne. apply pickYearLoop_In.
    + lia.
    + intro E. apply Hne. apply length_zero_iff_nil.
      rewrite <- Hlen, E. reflexivity.
Qed.

Lemma C2_pickYear_largest_affordable_witness :
  let priceBands := [12000; 18000; 25000; 35000]%Q in
  let yearsByBand := [2015; 2018; 2021; 2024] in
  List.length yearsByBand = List.length priceBands
  /\ pickYearForBudget priceBands yearsByBand (Fin 20000)
     = nth_error yearsByBand 1
  /\ exists y, pickYearForBudget priceBands yearsByBand (Fin 20000) = Some y
               /\ In y yearsByBand.
Proof.
  cbv zeta. split; [reflexivity | ].
  pose proof (C2_pickYear_largest_affordable [12000; 18000; 25000; 35000]%Q
                [2015; 2018; 2021; 2024] (Fin 20000) eq_refl)
    as (Hlargest & _ & _ & _ & Hin).
  split.
  - apply (Hlargest 1%nat 18000%Q); [reflexivity | reflexivity | ].
    intros j q Hj Hq.
    destruct j as [|[|[|[|j]]]]; try lia; simpl in Hq.
    + injection Hq as <-. reflexivity.
    + injection Hq as <-. reflexivity.
    + destruct j; discriminate.
  - apply Hin. discriminate.
Defined.

(** On the empty sequence the loop does not run and the function returns
    [yearsByBand[0]], which is [undefined]. *)
Lemma pickYear_empty_bands (budget : number) :
  pickYearForBudget [] [] budget = None.
Proof. reflexivity. Qed.

(* ------------------------------------------------------------------ *)
(** ** [affordabilityScore] *)

Lemma last_cons {A : Type} (ys : list A) (x y : A) :
  last (y :: ys) x = last ys y.
Proof.
  revert x y. induction ys as [|z zs IH]; intros x y.
  - reflexivity.
  - change (last (y :: z :: zs) x) with (last (z :: zs) x).
    now rewrite (IH x z), (IH y z).
Qed.

Lemma lastSlot_cons (x : Q) (xs : list Q) :
  lastSlot (x :: xs) = Some (last xs x).
Proof.
  unfold lastSlot. simpl List.length. revert x.
  induction xs as [|y ys IH]; intro x.
  - reflexivity.
  - simpl List.length. change (nth_error (x :: y :: ys) (S (List.length ys)))
      with (nth_error (y :: ys) (List.length ys)).
    rewrite IH. now rewrite last_cons.
Qed.

Lemma minimum_ascending (x : Q) (xs : list Q) :
  Sorted Qle (x :: xs) -> (minimum x xs == x)%Q.
Proof.
  revert x. induction xs as [|y ys IH]; intros x Hs.
  - reflexivity.
  - simpl. apply Sorted_inv in Hs. destruct Hs as [Hs Hhd].
    apply HdRel_inv in Hhd. apply Q.min_l. now rewrite (IH y Hs).
Qed.

Lemma maximum_ascending (x : Q) (xs : list Q) :
  Sorted Qle (x :: xs) -> (maximum x xs == last xs x)%Q.
Proof.
  revert x. induction xs as [|y ys IH]; intros x Hs.
  - reflexivity.
  - apply Sorted_inv in Hs. destruct Hs as [Hs Hhd].
    apply HdRel_inv in Hhd.
    rewrite last_cons. simpl maximum. rewrite (IH y Hs).
    apply Q.max_r. rewrite <- (IH y Hs).
    clear - Hhd. revert y Hhd. induction ys as [|z zs IHz]; intros y Hxy.
    + exact Hxy.
    + simpl. apply Qle_trans with y; [exact Hxy | ]. apply Q.le_max_l.
Qed.

(** The score on a non-empty sequence, by its first and last band. *)
Lemma affordabilityScore_cons (x : Q) (xs : list Q) (budget : number) :
  affordabilityScore (x :: xs) budget
  = if (Fin x <=? budget) && (budget <=? Fin (last xs x)) then Fin 0
    else if budget <? Fin x then Fin x - budget
    else budget - Fin (last xs x).
Proof.
  unfold affordabilityScore. rewrite lastSlot_cons. reflexivity.
Qed.

Lemma sub_Fin_not_zero (p q : Q) :
  ~ (p == q)%Q -> (Fin p - Fin q === Fin 0) = false.
Proof.
  intro Hne. apply not_true_iff_false. intro H.
  unfold Num.sub in H. cbn [Num.neg Num.add] in H.
  apply NumFacts.seq_Fin in H. apply Hne.
  rewrite <- (Qplus_0_l q), <- H. ring.
Qed.

Lemma aff_zero_iff_within (lo hi : Q) (budget : number) :
  ((if (Fin lo <=? budget) && (budget <=? Fin hi) then Fin 0
    else if budget <? Fin lo then Fin lo - budget
    else budget - Fin hi) === Fin 0) = true
  <-> (Fin lo <=? budget) = true /\ (budget <=? Fin hi) = true.
Proof.
  destruct budget as [| |b|]; try (cbn; intuition congruence).
  destruct (Fin lo <=? Fin b) eqn:Hlo; cbn [andb].
  - destruct (Fin b <=? Fin hi) eqn:Hhi.
    + cbn. tauto.
    + apply NumFacts.le_Fin in Hlo. pose proof Hhi as Hhi'.
      apply NumFacts.le_Fin_false in Hhi'.
      assert (Hlt : (Fin b <? Fin lo) = false)
        by now apply NumFacts.lt_Fin_false.
      rewrite Hlt, sub_Fin_not_zero.
      * intuition congruence.
      * intro E. rewrite E in Hhi'. exact (Qlt_irrefl _ Hhi').
  - pose proof Hlo as Hlo'. apply NumFacts.le_Fin_false in Hlo'.
    assert (Hlt : (Fin b <? Fin lo) = true) by now apply NumFacts.lt_Fin.
    rewrite Hlt, sub_Fin_not_zero.
    + intuition congruence.
    + intro E. rewrite E in Hlo'. exact (Qlt_irrefl _ Hlo').
Qed.

Lemma maximum_ge_head (x : Q) (xs : list Q) : (x <= maximum x xs)%Q.
Proof.
  destruct xs as [|y ys]; simpl.
  - apply Qle_refl.
  - apply Q.le_max_l.
Qed.

(** C3: on a non-empty ascending sequence of price bands the score is zero
    exactly when the budget lies between the least and the greatest band,
    both included; below the least band it is the distance up to it, above
    the greatest band the distance down to it. *)
Theorem C3_affordability_band_range (x : Q) (xs : list Q) (budget : number) :
  Sorted Qle (x :: xs) ->
  let lo := minimum x xs in
  let hi := maximum x xs in
  let d := affordabilityScore (x :: xs) budget in
  ((d === Fin 0) = true
   <-> (Fin lo <=? budget) = true /\ (budget <=? Fin hi) = true)
  /\ ((budget <? Fin lo) = true -> Num.same d (Fin lo - budget))
  /\ ((Fin hi <? budget) = true -> Num.same d (budget - Fin hi)).
Proof.
  intros Hs lo hi d. subst lo hi d.
  pose proof (minimum_ascending x xs Hs) as Hmin.
  pose proof (maximum_ascending x xs Hs) as Hmax.
  pose proof (maximum_ge_head x xs) as Hle. rewrite Hmax in Hle.
  assert (Slo : Num.same (Fin (minimum x xs)) (Fin x)) by exact Hmin.
  assert (Shi : Num.same (Fin (maximum x xs)) (Fin (last xs x))) by exact Hmax.
  pose proof (NumFacts.same_refl budget) as Sb.
  rewrite affordabilityScore_cons.
  rewrite (NumFacts.le_same _ _ _ _ Slo Sb), (NumFacts.le_same _ _ _ _ Sb Shi),
    (NumFacts.lt_same _ _ _ _ Sb Slo), (NumFacts.lt_same _ _ _ _ Shi Sb).
  split; [apply aff_zero_iff_within | split].
  - intro Hlt.
    assert (Hno : (Fin x <=? budget) = false).
    { destruct budget as [| |b|]; try discriminate; try reflexivity.
      apply NumFacts.le_Fin_false. now apply NumFacts.lt_Fin. }
    rewrite Hno, Hlt. cbn [andb].
    apply NumFacts.sub_same; [now apply NumFacts.same_sym | exact Sb].
  - intro Hgt.
    assert (Hno : (budget <=? Fin (last xs x)) = false).
    { destruct budget as [| |b|]; try discriminate; try reflexivity.
      apply NumFacts.le_Fin_false. now apply NumFacts.lt_Fin. }
    assert (Hnlt : (budget <? Fin x) = false).
    { destruct budget as [| |b|]; try discriminate; try reflexivity.
      apply NumFacts.lt_Fin_false. apply NumFacts.lt_Fin in Hgt.
      apply Qlt_le_weak. eapply Qle_lt_trans; eassumption. }
    rewrite Hno, Hnlt, andb_false_r.
    apply NumFacts.sub_same; [exact Sb | now apply NumFacts.same_sym].
Qed.

Lemma C3_affordability_band_range_witness :
  Sorted Qle [12000; 18000; 25000; 35000]%Q
  /\ ((affordabilityScore [12000; 18000; 25000; 35000]%Q (Fin 20000) === Fin 0)
      = true
      <-> (Fin (minimum 12000 [18000; 25000; 35000]%Q) <=? Fin 20000) = true
          /\ (Fin 20000 <=? Fin (maximum 12000 [18000; 25000; 35000]%Q))
             = true).
Proof.
  assert (Hs : Sorted Qle [12000; 18000; 25000; 35000]%Q).
  { repeat (apply Sorted_cons || apply Sorted_nil
            || apply HdRel_cons || apply HdRel_nil); discriminate. }
  split; [exact Hs | ].
  exact (proj1 (C3_affordability_band_range 12000
                  [18000; 25000; 35000]%Q (Fin 20000) Hs)).
Defined.

(* ------------------------------------------------------------------ *)
(** ** Sorting and slicing *)

Section SortFacts.
Context {A : Type}.
Variable cmp : A -> A -> number.

Lemma insertBy_cons (x y : A) (l : list A) :
  insertBy cmp x (y :: l)
  = if cmp x y >? Fin 0 then y :: insertBy cmp x l else x :: y :: l.
Proof. reflexivity. Qed.

Lemma In_insertBy (a x : A) (l : list A) :
  In a (insertBy cmp x l) <-> a = x \/ In a l.
Proof.
  induction l as [|y l IH].
  - simpl. split; intros [->|[]]; now left.
  - rewrite insertBy_cons. destruct (cmp x y >? Fin 0).
    + cbn [In]. rewrite IH. tauto.
    + cbn [In]. split; intros [H|H]; auto.
Qed.

Lemma In_sortBy (a : A) (l : list A) : In a (sortBy cmp l) <-> In a l.
Proof.
  induction l as [|x l IH].
  - reflexivity.
  - cbn [sortBy fold_right]. fold (sortBy cmp l).
    rewrite In_insertBy, IH. cbn [In]. split; intros [H|H]; auto.
Qed.

Lemma length_insertBy (x : A) (l : list A) :
  List.length (insertBy cmp x l) = S (List.length l).
Proof.
  induction l as [|y l IH].
  - reflexivity.
  - rewrite insertBy_cons. destruct (cmp x y >? Fin 0).
    + cbn [List.length]. now rewrite IH.
    + reflexivity.
Qed.

Lemma length_sortBy (l : list A) :
  List.length (sortBy cmp l) = List.length l.
Proof.
  induction l as [|x l IH].
  - reflexivity.
  - cbn [sortBy fold_right]. fold (sortBy cmp l).
    now rewrite length_insertBy, IH.
Qed.

Lemma Forall_sortBy (P : A -> Prop) (l : list A) :
  Forall P l -> Forall P (sortBy cmp l).
Proof.
  rewrite !Forall_forall. intros H a Ha. apply H. now apply In_sortBy.
Qed.
End SortFacts.

Lemma HdRel_insertBy (y x : MatchResult) (l : list MatchResult) :
  scoreLe y x -> HdRel scoreLe y l -> HdRel scoreLe y (insertBy byScore x l).
Proof.
  intros Hyx Hhd. destruct l as [|z l].
  - now constructor.
  - rewrite insertBy_cons. destruct (byScore x z >? Fin 0).
    + constructor. now apply HdRel_inv in Hhd.
    + now constructor.
Qed.

Lemma Sorted_insertBy (x : MatchResult) (l : list MatchResult) :
  scored x -> Forall scored l ->
  Sorted scoreLe l -> Sorted scoreLe (insertBy byScore x l).
Proof.
  intros Hx Hl Hs. induction l as [|y l IH].
  - repeat constructor.
  - apply Sorted_inv in Hs. destruct Hs as [Hs Hhd].
    apply Forall_inv_tail in Hl as Hl'. apply Forall_inv in Hl as Hy.
    rewrite insertBy_cons.
    unfold byScore at 1. rewrite NumFacts.sub_gt_zero.
    destruct (Result.score y <? Result.score x) eqn:E.
    + constructor.
      * now apply IH.
      * apply HdRel_insertBy; [ | assumption ].
        now apply NumFacts.lt_le.
    + constructor.
      * now constructor.
      * constructor. now apply NumFacts.not_lt_le.
Qed.

Lemma Sorted_sortBy (l : list MatchResult) :
  Forall scored l -> Sorted scoreLe (sortBy byScore l).
Proof.
  induction l as [|x l IH]; intro H.
  - constructor.
  - cbn [sortBy fold_right]. fold (sortBy byScore l).
    apply Sorted_insertBy.
    + now apply Forall_inv in H.
    + apply Forall_sortBy. now apply Forall_inv_tail in H.
    + apply IH. now apply Forall_inv_tail in H.
Qed.

Lemma Sorted_firstn {A : Type} (R : A -> A -> Prop) (n : nat) (l : list A) :
  Sorted R l -> Sorted R (firstn n l).
Proof.
  revert l. induction n as [|n IH]; intros l Hs.
  - constructor.
  - destruct l as [|x l]; [constructor | ].
    apply Sorted_inv in Hs. destruct Hs as [Hs Hhd]. simpl. constructor.
    + now apply IH.
    + destruct n; [constructor | ].
      destruct l as [|y l]; [constructor | ].
      simpl. constructor. now apply HdRel_inv in Hhd.
Qed.

Lemma In_top5 {A : Type} (a : A) (l : list A) : In a (top5 l) -> In a l.
Proof.
  unfold top5. generalize 5%nat. intro n. revert l.
  induction n as [|n IH]; intros [|x l]; simpl; try tauto.
  intros [H|H]; [now left | right; now apply IH].
Qed.

Lemma top5_nil_iff {A : Type} (l : list A) : top5 l = [] <-> l = [].
Proof.
  unfold top5. destruct l; simpl; split; intro H;
    reflexivity || discriminate.
Qed.

Lemma sortBy_nil_iff {A : Type} (cmp : A -> A -> number) (l : list A) :
  sortBy cmp l = [] <-> l = [].
Proof.
  rewrite <- !length_zero_iff_nil, length_sortBy. reflexivity.
Qed.

(* ------------------------------------------------------------------ *)
(** ** Scores *)

Lemma affordabilityScore_nonneg (priceBands : list Q) (budget : number) :
  priceBands <> [] -> Num.isNaN budget = false ->
  Num.nonneg (affordabilityScore priceBands budget).
Proof.
  intros Hne Hb. destruct priceBands as [|x xs]; [congruence | ].
  rewrite affordabilityScore_cons. unfold Num.nonneg.
  destruct budget as [| |b|]; try discriminate; try reflexivity.
  destruct (Fin x <=? Fin b) eqn:Hlo; cbn [andb].
  - destruct (Fin b <=? Fin (last xs x)) eqn:Hhi; [reflexivity | ].
    apply NumFacts.le_Fin in Hlo. apply NumFacts.le_Fin_false in Hhi.
    assert (Hlt : (Fin b <? Fin x) = false)
      by now apply NumFacts.lt_Fin_false.
    rewrite Hlt. unfold Num.sub. cbn [Num.neg Num.add].
    apply NumFacts.le_Fin. apply Qlt_le_weak.
    now rewrite <- Qlt_minus_iff.
  - apply NumFacts.le_Fin_false in Hlo.
    assert (Hlt : (Fin b <? Fin x) = true) by now apply NumFacts.lt_Fin.
    rewrite Hlt. unfold Num.sub. cbn [Num.neg Num.add].
    apply NumFacts.le_Fin. apply Qlt_le_weak.
    now rewrite <- Qlt_minus_iff.
Qed.

Lemma seatPenalty_nonneg (wantSeats : number) (c : CarRecord) :
  Num.isNaN wantSeats = false -> Num.nonneg (seatPenalty wantSeats c).
Proof.
  intro H. unfold seatPenalty. apply NumFacts.nonneg_max_mul.
  - destruct wantSeats; try discriminate; reflexivity.
  - reflexivity.
Qed.

Lemma primaryResult_scored (wantSeats wantBudget : number) (c : CarRecord) :
  priceBands c <> [] ->
  Num.isNaN wantSeats = false -> Num.isNaN wantBudget = false ->
  Num.nonneg (Result.score (primaryResult wantSeats wantBudget c)).
Proof.
  intros Hne Hs Hb. simpl. apply NumFacts.nonneg_add.
  - now apply affordabilityScore_nonneg.
  - now apply seatPenalty_nonneg.
Qed.

Lemma relaxedResult_scored (wantSeats wantBudget : number) (c : CarRecord) :
  priceBands c <> [] ->
  Num.isNaN wantSeats = false -> Num.isNaN wantBudget = false ->
  Num.nonneg (Result.score (relaxedResult wantSeats wantBudget c)).
Proof.
  intros Hne Hs Hb. simpl. apply NumFacts.nonneg_add; [ | reflexivity ].
  apply NumFacts.nonneg_add.
  - now apply affordabilityScore_nonneg.
  - now apply seatPenalty_nonneg.
Qed.

(* ------------------------------------------------------------------ *)
(** ** The two passes *)

Section Passes.
Variable catalog : list CarRecord.
Variables wantSeats wantBudget : number.
Variable wantType : string.

Lemma In_primaryPass (r : MatchResult) :
  In r (primaryPass catalog wantSeats wantBudget wantType) ->
  exists c, In c catalog
            /\ primarySeatFilter wantSeats c = true
            /\ typeFilter wantType c = true
            /\ r = primaryResult wantSeats wantBudget c.
Proof.
  unfold primaryPass. intro H.
  apply In_top5, In_sortBy, in_map_iff in H. destruct H as (c & <- & Hc).
  apply filter_In in Hc. destruct Hc as [Hc Hty].
  apply filter_In in Hc. destruct Hc as [Hc Hseat].
  exists c. auto.
Qed.

Lemma In_relaxedPass (r : MatchResult) :
  In r (relaxedPass catalog wantSeats wantBudget) ->
  exists c, In c catalog
            /\ relaxedSeatFilter wantSeats c = true
            /\ r = relaxedResult wantSeats wantBudget c.
Proof.
  unfold relaxedPass. intro H.
  apply In_top5, In_sortBy, in_map_iff in H. destruct H as (c & <- & Hc).
  apply filter_In in Hc. destruct Hc as [Hc Hseat].
  exists c. auto.
Qed.

Hypothesis bands : Forall (fun c => priceBands c <> []) catalog.
Hypothesis seatsNumber : Num.isNaN wantSeats = false.
Hypothesis budgetNumber : Num.isNaN wantBudget = false.

Lemma primaryPass_sorted :
  Sorted scoreLe (primaryPass catalog wantSeats wantBudget wantType).
Proof.
  unfold primaryPass, top5. apply Sorted_firstn, Sorted_sortBy.
  apply Forall_forall. intros r Hr. apply in_map_iff in Hr.
  destruct Hr as (c & <- & Hc).
  apply filter_In in Hc. destruct Hc as [Hc _].
  apply filter_In in Hc. destruct Hc as [Hc _].
  apply NumFacts.nonneg_not_NaN, primaryResult_scored; auto.
  rewrite Forall_forall in bands. now apply bands.
Qed.

Lemma relaxedPass_sorted :
  Sorted scoreLe (relaxedPass catalog wantSeats wantBudget).
Proof.
  unfold relaxedPass, top5. apply Sorted_firstn, Sorted_sortBy.
  apply Forall_forall. intros r Hr. apply in_map_iff in Hr.
  destruct Hr as (c & <- & Hc).
  apply filter_In in Hc. destruct Hc as [Hc _].
  apply NumFacts.nonneg_not_NaN, relaxedResult_scored; auto.
  rewrite Forall_forall in bands. now apply bands.
Qed.

End Passes.

Lemma length_top5 {A : Type} (l : list A) : (List.length (top5 l) <= 5)%nat.
Proof. unfold top5. apply firstn_le_length. Qed.

Lemma results_searchOver (catalog : list CarRecord) (seats budget : number)
    (type : string) :
  let wantSeats := Num.orDefault seats (Fin 4) in
  let wantBudget := Num.orDefault budget (Fin 20000) in
  let wantType := Str.toLowerCase type in
  let answer := searchOver catalog seats budget type in
  (relaxed answer = false
   /\ results answer = primaryPass catalog wantSeats wantBudget wantType
   /\ results answer <> [])
  \/ (relaxed answer = true
      /\ results answer = relaxedPass catalog wantSeats wantBudget
      /\ primaryPass catalog wantSeats wantBudget wantType = []).
Proof.
  cbv zeta. unfold searchOver.
  destruct (primaryPass catalog _ _ _) as [|r rs] eqn:E; simpl.
  - right. auto.
  - left. repeat split. discriminate.
Qed.

(** C4: whatever is asked, the results of [search] are in non-decreasing
    order of score and at most five; this holds of the primary pass and of
    the relaxed pass, hence of the answer. *)
Theorem C4_results_sorted_at_most_five (seats budget : number)
    (type : string) :
  let wantSeats := Num.orDefault seats (Fin 4) in
  let wantBudget := Num.orDefault budget (Fin 20000) in
  let wantType := Str.toLowerCase type in
  (Sorted scoreLe (primaryPass CARS wantSeats wantBudget wantType)
   /\ (List.length (primaryPass CARS wantSeats wantBudget wantType) <= 5)%nat)
  /\ (Sorted scoreLe (relaxedPass CARS wantSeats wantBudget)
      /\ (List.length (relaxedPass CARS wantSeats wantBudget) <= 5)%nat)
  /\ (Sorted scoreLe (results (search seats budget type))
      /\ (List.length (results (search seats budget type)) <= 5)%nat).
Proof.
  intros wantSeats wantBudget wantType.
  assert (Hp : Sorted scoreLe (primaryPass CARS wantSeats wantBudget wantType)
               /\ (List.length (primaryPass CARS wantSeats wantBudget wantType)
                   <= 5)%nat).
  { split.
    - apply primaryPass_sorted.
      + apply catalog_bands_nonempty.
      + apply NumFacts.orDefault_not_NaN.
      + apply NumFacts.orDefault_not_NaN.
    - apply length_top5. }
  assert (Hr : Sorted scoreLe (relaxedPass CARS wantSeats wantBudget)
               /\ (List.length (relaxedPass CARS wantSeats wantBudget)
                   <= 5)%nat).
  { split.
    - apply relaxedPass_sorted.
      + apply catalog_bands_nonempty.
      + apply NumFacts.orDefault_not_NaN.
      + apply NumFacts.orDefault_not_NaN.
    - apply length_top5. }
  split; [exact Hp | split; [exact Hr | ]].
  unfold search.
  destruct (results_searchOver CARS seats budget type)
    as [(_ & -> & _) | (_ & -> & _)]; assumption.
Qed.

(* ------------------------------------------------------------------ *)
(** ** The fallback *)

Lemma relaxedResult_withPenalty (wantSeats wantBudget : number)
    (c : CarRecord) :
  relaxedResult wantSeats wantBudget c
  = withPenalty (Fin 10000) (primaryResult wantSeats wantBudget c).
Proof. reflexivity. Qed.


(* ------------------------------------------------------------------ *)
(** ** Scores of the results *)

Lemma typeFilter_none_primary_empty (catalog : list CarRecord)
    (wantSeats wantBudget : number) (wantType : string) :
  (forall c, In c catalog -> typeFilter wantType c = false) ->
  primaryPass catalog wantSeats wantBudget wantType = [].
Proof.
  intro Hnone. unfold primaryPass.
  apply top5_nil_iff, sortBy_nil_iff.
  assert (E : filter (typeFilter wantType)
                (filter (primarySeatFilter wantSeats) catalog) = []).
  { destruct (filter (typeFilter wantType) _) as [|c l] eqn:E; [reflexivity|].
    assert (Hc : In c (c :: l)) by now left.
    rewrite <- E in Hc. apply filter_In in Hc. destruct Hc as [Hc Hty].
    apply filter_In in Hc. destruct Hc as [Hc _].
    rewrite (Hnone c Hc) in Hty. discriminate. }
  now rewrite E.
Qed.


Lemma hovercar_matches_nothing :
  forall c, In c CARS -> typeFilter (Str.toLowerCase "hovercar") c = false.
Proof.
  intros c Hc. unfold CARS in Hc. simpl in Hc.
  repeat (destruct Hc as [<- | Hc]; [reflexivity | ]). destruct Hc.
Qed.

Module Rounding.
Import PrimFloat.

(** C6, as the source has it: for a type that matches no entry of the
    catalog the answer is marked relaxed, and the score of every result
    returned is the sum the code writes: the score of the non-relaxed pass
    for the same record, seats and budget, plus 10000.  The same holds of
    the two scores as the engine computes them on floats. *)
Theorem C6_unmatched_type_relaxed_sum (seats budget : number)
    (type : string) :
  (forall c, In c CARS -> typeFilter (Str.toLowerCase type) c = false) ->
  let wantSeats := Num.orDefault seats (Fin 4) in
  let wantBudget := Num.orDefault budget (Fin 20000) in
  relaxed (search seats budget type) = true
  /\ Forall (fun r =>
       exists c, In c CARS
         /\ r = relaxedResult wantSeats wantBudget c
         /\ Result.score r
            = (Result.score (primaryResult wantSeats wantBudget c)
               + Fin 10000)%num)
       (results (search seats budget type))
  /\ (forall priceBands b s m,
        Binary64.relaxedScore priceBands b s m
        = (Binary64.primaryScore priceBands b s m + 10000)%float).
Proof.
  intros Hnone wantSeats wantBudget. unfold search.
  pose proof (typeFilter_none_primary_empty CARS wantSeats wantBudget
                (Str.toLowerCase type) Hnone) as Hempty.
  destruct (results_searchOver CARS seats budget type)
    as [(_ & E & Hne) | (Hrel & E & _)].
  - exfalso. apply Hne. rewrite E. exact Hempty.
  - split; [exact Hrel | split; [ | reflexivity ] ].
    rewrite E. apply Forall_forall. intros r Hr.
    apply In_relaxedPass in Hr. destruct Hr as (c & Hc & _ & ->).
    exists c. repeat split. assumption.
Qed.

Lemma C6_unmatched_type_relaxed_sum_witness :
  (forall c, In c CARS -> typeFilter (Str.toLowerCase "hovercar") c = false)
  /\ relaxed (search (Fin 5) (Fin 30000) "hovercar") = true.
Proof.
  split; [exact hovercar_matches_nothing | ].
  exact (proj1 (C6_unmatched_type_relaxed_sum (Fin 5) (Fin 30000) "hovercar"
                  hovercar_matches_nothing)).
Defined.

(** C6 fails on the floats of the engine.  For five seats, the type
    "hovercar", which matches nothing, and the budget 1500.4 (the double
    0x1.771999999999ap+10), the answer is relaxed and its first result is
    the Toyota Camry; the score of that record is 10499.6 in a non-relaxed
    pass and the rounded sum 20499.6 in the relaxed one, which is
    9999.999999999998 above it, less than 10000 (the subtraction of the
    two is exact).  For the budget 1e21 the sum is rounded back to the
    non-relaxed score itself. *)
Lemma C6_rounded_sum_below_10000 :
  let camry := [12000; 18000; 25000; 35000]%float in
  let budget := 0x1.771999999999ap+10%float in
  let p := Binary64.primaryScore camry budget 5 5 in
  let r := Binary64.relaxedScore camry budget 5 5 in
  relaxed (search (Fin 5) (Fin (3299414492630221 # 2199023255552)) "hovercar")
  = true
  /\ option_map Result.model
       (hd_error (results (search (Fin 5)
                    (Fin (3299414492630221 # 2199023255552)) "hovercar")))
     = Some "Toyota Camry"
  /\ (r =? p + 10000)%float = true
  /\ (r - p <? 10000)%float = true
  /\ (r - p =? 0x1.387ffffffffffp+13)%float = true
  /\ (Binary64.relaxedScore camry 1e21 5 5
      =? Binary64.primaryScore camry 1e21 5 5)%float = true.
Proof.
  cbv zeta. repeat split; vm_compute; reflexivity.
Qed.

End Rounding.



(** C8: asked for five seats, a budget of 30000 and the type "luxury", the
    search over [CARS] returns both the Mercedes-Benz S-Class and the Tesla
    Model S, each with "luxury" among its [typeMatches]. *)
Theorem C8_luxury_five_seats :
  let answer := search (Fin 5) (Fin 30000) "luxury" in
  map Result.model (results answer)
  = ["Mercedes-Benz S-Class"; "BMW 7 Series"; "Lexus LS";
     "Cadillac Escalade"; "Tesla Model S"]
  /\ (exists r, In r (results answer)
                /\ Result.model r = "Mercedes-Benz S-Class"
                /\ Str.includes (Result.typeMatches r) "luxury" = true)
  /\ (exists r, In r (results answer)
                /\ Result.model r = "Tesla Model S"
                /\ Str.includes (Result.typeMatches r) "luxury" = true).
Proof.
  cbv zeta. split; [vm_compute; reflexivity | split].
  - eexists. split; [ | split ].
    + left. reflexivity.
    + vm_compute. reflexivity.
    + vm_compute. reflexivity.
  - eexists. split; [ | split ].
    + do 4 right. left. reflexivity.
    + vm_compute. reflexivity.
    + vm_compute. reflexivity.
Qed.

(* ------------------------------------------------------------------ *)
(** ** The route and its coercions *)

Lemma sequence_total {A : Type} (cs : list (completion A)) :
  Forall (fun c => exists a, c = Normal a) cs ->
  exists l, sequence cs = Normal l.
Proof.
  induction 1 as [|c cs (a & ->) _ (l & IH)]; simpl.
  - now exists [].
  - rewrite IH. simpl. now exists (a :: l).
Qed.

Section CoercionFacts.
Context {B : Builtins}.

Lemma ToString_total : forall v,
  coercible v = true -> exists s, ToString v = Normal s.
Proof.
  fix IH 1. intros [ | | [|] | n | s | elems | members] H;
    try (eexists; reflexivity).
  - cbn [ToString].
    assert (Hall : Forall (fun c => exists a, c = Normal a)
              (map (fun e => match e with
                             | VUndefined | VNull => Normal ""
                             | _ => ToString e
                             end) elems)).
    { cbn [coercible] in H. clear - H IH.
      induction elems as [|e es IHes]; simpl; constructor.
      - simpl in H. apply andb_true_iff in H. destruct H as [He _].
        destruct (IH e He) as (s & Es).
        destruct e; try (eexists; reflexivity); now exists s.
      - simpl in H. apply andb_true_iff in H. destruct H as [_ Hes].
        now apply IHes. }
    destruct (sequence_total _ Hall) as (parts & ->).
    eexists. reflexivity.
  - cbn [ToString]. cbn [coercible] in H. apply negb_true_iff in H.
    rewrite H. eexists. reflexivity.
Qed.

Lemma ToNumber_total (v : value) :
  coercible v = true -> exists n, ToNumber v = Normal n.
Proof.
  intro H. destruct v as [ | | [|] | n | s | elems | members];
    try (eexists; reflexivity).
  - unfold ToNumber. destruct (ToString_total _ H) as (s & ->).
    eexists. reflexivity.
  - unfold ToNumber. destruct (ToString_total _ H) as (s & ->).
    eexists. reflexivity.
Qed.

Lemma coercible_orElse (a b : value) :
  coercible a = true -> coercible b = true -> coercible (orElse a b) = true.
Proof. unfold orElse. now destruct (truthy a). Qed.

End CoercionFacts.

Lemma sequence_throws {A : Type} (cs : list (completion A)) :
  Forall (fun c => (exists a, c = Normal a) \/ c = Throw TypeError) cs ->
  Exists (fun c => c = Throw TypeError) cs ->
  sequence cs = Throw TypeError.
Proof.
  induction 1 as [|c cs [(a & ->) | ->] Hcs IH]; intro Hex.
  - inversion Hex.
  - inversion Hex as [? ? Hc | ? ? Hrest]; subst; [discriminate | ].
    simpl. now rewrite (IH Hrest).
  - reflexivity.
Qed.

Section CoercionFailures.
Context {B : Builtins}.

Lemma ToString_outcome : forall v,
  if coercible v then exists s, ToString v = Normal s
  else ToString v = Throw TypeError.
Proof.
  fix IH 1. intros [ | | [|] | n | s | elems | members];
    try (cbn [coercible]; eexists; reflexivity).
  - cbn [coercible ToString].
    assert (Hall : Forall (fun e =>
              if coercible e
              then exists s, match e with
                             | VUndefined | VNull => Normal ""
                             | _ => ToString e
                             end = Normal s
              else match e with
                   | VUndefined | VNull => Normal ""
                   | _ => ToString e
                   end = Throw TypeError) elems).
    { induction elems as [|e es IHes]; constructor; [ | exact IHes ].
      pose proof (IH e) as He.
      destruct e; try (cbn [coercible]; eexists; reflexivity); exact He. }
    destruct (forallb coercible elems) eqn:E.
    + destruct (sequence_total
                  (map (fun e => match e with
                                 | VUndefined | VNull => Normal ""
                                 | _ => ToString e
                                 end) elems)) as (parts & ->).
      * rewrite forallb_forall in E. rewrite Forall_forall in Hall.
        apply Forall_forall. intros c Hc. apply in_map_iff in Hc.
        destruct Hc as (e & <- & He). specialize (Hall e He).
        now rewrite (E e He) in Hall.
      * eexists. reflexivity.
    + rewrite sequence_throws; [reflexivity | | ].
      * rewrite Forall_forall in Hall.
        apply Forall_forall. intros c Hc. apply in_map_iff in Hc.
        destruct Hc as (e & <- & He). specialize (Hall e He).
        destruct (coercible e); [now left | now right].
      * apply Exists_exists.
        assert (Hex : exists e, In e elems /\ coercible e = false).
        { clear - E. induction elems as [|e es IHes]; [discriminate | ].
          simpl in E. apply andb_false_iff in E. destruct E as [E | E].
          - exists e. split; [now left | exact E].
          - destruct (IHes E) as (e' & He' & Ee'). exists e'.
            split; [now right | exact Ee']. }
        destruct Hex as (e & He & Ee).
        rewrite Forall_forall in Hall. specialize (Hall e He).
        rewrite Ee in Hall.
        eexists. split; [apply in_map_iff; exists e; split;
                         [reflexivity | exact He] | exact Hall].
  - cbn [coercible ToString]. destruct (hasOwn "toString" members); simpl.
    + reflexivity.
    + eexists. reflexivity.
Qed.

Lemma ToString_throws (v : value) :
  coercible v = false -> ToString v = Throw TypeError.
Proof. intro H. pose proof (ToString_outcome v) as O. now rewrite H in O. Qed.

Lemma ToNumber_throws (v : value) :
  coercible v = false -> ToNumber v = Throw TypeError.
Proof.
  intro H. destruct v as [ | | [|] | n | s | elems | members];
    try discriminate; unfold ToNumber; now rewrite (ToString_throws _ H).
Qed.

(** The route answers exactly on the bodies whose three members convert to
    primitives, and throws a TypeError on the others. *)
Lemma searchRoute_answers_iff (body : value) :
  (exists answer, searchRoute body = Normal answer)
  <-> coercible (member body "seats") = true
      /\ coercible (member body "budget") = true
      /\ coercible (member body "type") = true.
Proof.
  unfold searchRoute, searchRouteOver. split.
  - intros (answer & E).
    destruct (coercible (member body "seats")) eqn:Hs.
    2:{ rewrite (ToNumber_throws _ Hs) in E. discriminate. }
    destruct (ToNumber_total _ Hs) as (nSeats & Es). rewrite Es in E.
    destruct (coercible (member body "budget")) eqn:Hb.
    2:{ rewrite (ToNumber_throws _ Hb) in E. discriminate. }
    destruct (ToNumber_total _ Hb) as (nBudget & Eb). rewrite Eb in E.
    destruct (coercible (member body "type")) eqn:Ht; [auto | ].
    assert (Htr : truthy (member body "type") = true)
      by (destruct (member body "type"); try discriminate; reflexivity).
    unfold orElse in E. rewrite Htr in E.
    rewrite (ToString_throws _ Ht) in E. discriminate.
  - intros (Hs & Hb & Ht).
    destruct (ToNumber_total _ Hs) as (nSeats & ->).
    destruct (ToNumber_total _ Hb) as (nBudget & ->).
    destruct (ToString_total (orElse (member body "type") (VStr "")))
      as (sType & ->).
    { now apply coercible_orElse. }
    eexists. reflexivity.
Qed.

End CoercionFailures.

Lemma search_seats_default (seats budget : number) (type : string) :
  Num.truthy seats = false ->
  search seats budget type = search (Fin 4) budget type.
Proof.
  intro H. unfold search, searchOver, Num.orDefault. rewrite H. reflexivity.
Qed.

Lemma search_budget_default (seats budget : number) (type : string) :
  Num.truthy budget = false ->
  search seats budget type = search seats (Fin 20000) type.
Proof.
  intro H. unfold search, searchOver, Num.orDefault. rewrite H. reflexivity.
Qed.

Lemma length_results_search (seats budget : number) (type : string) :
  (List.length (results (search seats budget type)) <= 5)%nat.
Proof.
  unfold search.
  destruct (results_searchOver CARS seats budget type)
    as [(_ & -> & _) | (_ & -> & _)]; apply length_top5.
Qed.

(** C7, as the source has it: on a body whose [seats], [budget] and [type]
    members convert to primitives the route answers and never throws, with
    at most five results; a [seats] or [budget] that is absent, not a
    number, or zero is replaced by 4 or 20000, an absent or falsy [type] by
    the empty string; and the request with seats 0, budget 0 and an empty
    type is answered as the one with seats 4, budget 20000 and an empty
    type. *)
Theorem C7_route_total_with_defaults {B : Builtins} (body : value) :
  coercible (member body "seats") = true ->
  coercible (member body "budget") = true ->
  coercible (member body "type") = true ->
  (exists nSeats nBudget sType,
      ToNumber (member body "seats") = Normal nSeats
      /\ ToNumber (member body "budget") = Normal nBudget
      /\ ToString (orElse (member body "type") (VStr "")) = Normal sType
      /\ searchRoute body = Normal (search nSeats nBudget sType)
      /\ (List.length (results (search nSeats nBudget sType)) <= 5)%nat)
  /\ (forall seats budget type,
         Num.truthy seats = false ->
         search seats budget type = search (Fin 4) budget type)
  /\ (forall seats budget type,
         Num.truthy budget = false ->
         search seats budget type = search seats (Fin 20000) type)
  /\ ToNumber VUndefined = Normal NaN
  /\ Num.truthy NaN = false
  /\ Num.truthy (Fin 0) = false
  /\ (forall type, truthy type = false -> orElse type (VStr "") = VStr "")
  /\ searchRoute (VObj []) = Normal (search (Fin 4) (Fin 20000) "")
  /\ searchRoute (request (VNum (Fin 0)) (VNum (Fin 0)) (VStr ""))
     = searchRoute (request (VNum (Fin 4)) (VNum (Fin 20000)) (VStr ""))
  /\ searchRoute (request (VNum (Fin 0)) (VNum (Fin 0)) (VStr ""))
     = Normal (search (Fin 4) (Fin 20000) "").
Proof.
  intros Hs Hb Ht. split; [ | repeat split ].
  - destruct (ToNumber_total _ Hs) as (nSeats & Es).
    destruct (ToNumber_total _ Hb) as (nBudget & Eb).
    destruct (ToString_total (orElse (member body "type") (VStr "")))
      as (sType & Et).
    { now apply coercible_orElse. }
    exists nSeats, nBudget, sType. repeat split; try assumption.
    + unfold searchRoute, searchRouteOver. rewrite Es, Eb, Et. reflexivity.
    + apply length_results_search.
  - apply search_seats_default.
  - apply search_budget_default.
  - intros type H. unfold orElse. now rewrite H.
Qed.

Lemma C7_route_total_with_defaults_witness :
  let body := request (VNum (Fin 0)) (VNum (Fin 0)) (VStr "") in
  coercible (member body "seats") = true
  /\ coercible (member body "budget") = true
  /\ coercible (member body "type") = true
  /\ exists nSeats nBudget sType,
       @ToNumber noConversion (member body "seats") = Normal nSeats
       /\ @ToNumber noConversion (member body "budget") = Normal nBudget
       /\ @ToString noConversion (orElse (member body "type") (VStr ""))
          = Normal sType
       /\ @searchRoute noConversion body
          = Normal (search nSeats nBudget sType)
       /\ (List.length (results (search nSeats nBudget sType)) <= 5)%nat.
Proof.
  cbv zeta. repeat (split; [reflexivity | ]).
  apply (@C7_route_total_with_defaults noConversion
           (request (VNum (Fin 0)) (VNum (Fin 0)) (VStr "")));
    reflexivity.
Defined.

(** C7 fails on a body whose [seats] is an object with a member named
    [toString]: [Number(seats)] finds no method to convert it with and
    throws a TypeError out of the handler, whatever the built-ins are. *)
Lemma C7_route_throws_on_object_member :
  coercible (member (VObj [("seats", VObj [("toString", VNum (Fin 1))])])
               "seats") = false
  /\ (forall B : Builtins,
        @searchRoute B (VObj [("seats", VObj [("toString", VNum (Fin 1))])])
        = Throw TypeError)
  /\ ~ (forall (B : Builtins) (body : value),
          exists answer, @searchRoute B body = Normal answer).
Proof.
  split; [reflexivity | split].
  - intro B. reflexivity.
  - intro H.
    destruct (H noConversion
                (VObj [("seats", VObj [("toString", VNum (Fin 1))])]))
      as (answer & E).
    discriminate E.
Qed.

(* ------------------------------------------------------------------ *)
(** ** [encodeURIComponent] and the links *)

Lemma nat_of_ascii_lt_256 (c : ascii) : (nat_of_ascii c < 256)%nat.
Proof. apply nat_ascii_bounded. Qed.

Lemma hexValue_hexDigit (n : nat) :
  (n < 16)%nat -> hexValue (Str.hexDigit n) = n.
Proof.
  intro H. do 16 (destruct n as [|n]; [reflexivity | ]). lia.
Qed.

Lemma hexDigit_unreserved (n : nat) :
  (n < 16)%nat -> Str.isUnreserved (Str.hexDigit n) = true.
Proof.
  intro H. do 16 (destruct n as [|n]; [reflexivity | ]). lia.
Qed.

Lemma encodeURIComponent_String (c : ascii) (r : string) :
  Str.encodeURIComponent (String c r)
  = if Str.isUnreserved c then String c (Str.encodeURIComponent r)
    else String "%" (String (Str.hexDigit (nat_of_ascii c / 16))
           (String (Str.hexDigit (nat_of_ascii c mod 16))
              (Str.encodeURIComponent r))).
Proof. reflexivity. Qed.

Lemma high_digit_lt_16 (c : ascii) : (nat_of_ascii c / 16 < 16)%nat.
Proof.
  pose proof (nat_of_ascii_lt_256 c).
  apply Nat.Div0.div_lt_upper_bound. lia.
Qed.

Lemma low_digit_lt_16 (c : ascii) : (nat_of_ascii c mod 16 < 16)%nat.
Proof. apply Nat.mod_upper_bound. discriminate. Qed.

Lemma hex_digits_unreserved (c : ascii) :
  Str.isUnreserved (Str.hexDigit (nat_of_ascii c / 16)) = true
  /\ Str.isUnreserved (Str.hexDigit (nat_of_ascii c mod 16)) = true.
Proof.
  split; apply hexDigit_unreserved;
    [apply high_digit_lt_16 | apply low_digit_lt_16].
Qed.

Lemma hex_digits_value (c : ascii) :
  hexValue (Str.hexDigit (nat_of_ascii c / 16)) = (nat_of_ascii c / 16)%nat
  /\ hexValue (Str.hexDigit (nat_of_ascii c mod 16))
     = (nat_of_ascii c mod 16)%nat.
Proof.
  split; apply hexValue_hexDigit;
    [apply high_digit_lt_16 | apply low_digit_lt_16].
Qed.

Lemma encodeURIComponent_urlSafe (s : string) :
  forallb urlSafe (chars (Str.encodeURIComponent s)) = true.
Proof.
  induction s as [|c r IH].
  - reflexivity.
  - rewrite encodeURIComponent_String.
    destruct (Str.isUnreserved c) eqn:E; cbn [chars forallb].
    + unfold urlSafe at 1. now rewrite E, IH.
    + unfold urlSafe at 1 2 3.
      destruct (hex_digits_unreserved c) as [-> ->]. now rewrite IH.
Qed.

Lemma String_inj (a b : ascii) (s t : string) :
  String a s = String b t -> a = b /\ s = t.
Proof. intro H. injection H as -> ->. now split. Qed.

Lemma encodeURIComponent_inj (s t : string) :
  Str.encodeURIComponent s = Str.encodeURIComponent t -> s = t.
Proof.
  revert t. induction s as [|c r IH]; intros [|d u] H.
  - reflexivity.
  - rewrite encodeURIComponent_String in H.
    destruct (Str.isUnreserved d); discriminate.
  - rewrite encodeURIComponent_String in H.
    destruct (Str.isUnreserved c); discriminate.
  - rewrite !encodeURIComponent_String in H.
    destruct (Str.isUnreserved c) eqn:Ec, (Str.isUnreserved d) eqn:Ed.
    + injection H as -> H. f_equal. now apply IH.
    + injection H as -> _. discriminate.
    + injection H as <- _. discriminate.
    + apply String_inj in H. destruct H as [_ H].
      apply String_inj in H. destruct H as [Hh H].
      apply String_inj in H. destruct H as [Hl H].
      apply (f_equal hexValue) in Hh, Hl.
      destruct (hex_digits_value c) as [Ec1 Ec2].
      destruct (hex_digits_value d) as [Ed1 Ed2].
      rewrite Ec1, Ed1 in Hh. rewrite Ec2, Ed2 in Hl.
      assert (E : nat_of_ascii c = nat_of_ascii d).
      { rewrite (Nat.div_mod_eq (nat_of_ascii c) 16),
          (Nat.div_mod_eq (nat_of_ascii d) 16), Hh, Hl. reflexivity. }
      apply (f_equal ascii_of_nat) in E. rewrite !ascii_nat_embedding in E.
      subst d. f_equal. now apply IH.
Qed.

Lemma encodeURIComponent_app (s t : string) :
  Str.encodeURIComponent (s ++ t)
  = Str.encodeURIComponent s ++ Str.encodeURIComponent t.
Proof.
  induction s as [|c r IH].
  - reflexivity.
  - cbn [append]. rewrite !encodeURIComponent_String, IH.
    destruct (Str.isUnreserved c); reflexivity.
Qed.

Lemma chars_app (s t : string) : chars (s ++ t) = (chars s ++ chars t)%list.
Proof.
  induction s as [|c r IH]; [reflexivity | ].
  cbn [append chars]. now rewrite IH.
Qed.

(** X2: the Google and the Cars.com link carry one and the same query: the
    encoded year (the word undefined when the record has no year), an
    encoded space and the encoded model, with no character in it that
    could end the parameter; the AutoScout link carries the year twice,
    as written, and the encoded model. *)
Theorem X2_buildSearchLinks_query (year : option Z) (model : string) :
  let q := Str.encodeURIComponent (yearText year) ++ "%20"
           ++ Str.encodeURIComponent model in
  google (buildSearchLinks year model)
  = "https://www.google.com/search?q=" ++ q ++ "+for+sale"
  /\ cars (buildSearchLinks year model)
     = "https://www.cars.com/shopping/results/?q=" ++ q
  /\ autoscout (buildSearchLinks year model)
     = "https://www.autoscout24.com/lst?sort=standard&desc=0&ustate=N%2CU&atype=C&powertype=kw&fregto="
       ++ yearText year ++ "&fregfrom=" ++ yearText year ++ "&q="
       ++ Str.encodeURIComponent model
  /\ forallb urlSafe (chars q) = true
  /\ yearText None = "undefined".
Proof.
  cbv zeta.
  assert (E : Str.encodeURIComponent (yearText year ++ " " ++ model)
              = Str.encodeURIComponent (yearText year) ++ "%20"
                ++ Str.encodeURIComponent model).
  { now rewrite !encodeURIComponent_app. }
  unfold buildSearchLinks. cbn [google cars autoscout]. rewrite E.
  repeat split.
  rewrite !chars_app, !forallb_app, !encodeURIComponent_urlSafe.
  reflexivity.
Qed.

(* ------------------------------------------------------------------ *)
(** ** [toLowerCase] and the type asked for *)

Lemma lowerChar_idempotent (c : ascii) :
  Str.lowerChar (Str.lowerChar c) = Str.lowerChar c.
Proof. destruct c as [[] [] [] [] [] [] [] []]; reflexivity. Qed.

Lemma toLowerCase_idempotent (s : string) :
  Str.toLowerCase (Str.toLowerCase s) = Str.toLowerCase s.
Proof.
  induction s as [|c r IH]; [reflexivity | ].
  cbn [Str.toLowerCase]. now rewrite lowerChar_idempotent, IH.
Qed.

Lemma isEmpty_toLowerCase (s : string) :
  Str.isEmpty (Str.toLowerCase s) = Str.isEmpty s.
Proof. destruct s; reflexivity. Qed.

(** X3: the search does not depend on the case of the type asked for: a
    type and its lower-case form get the same answer, and a type is taken
    as empty (no type filter) exactly when it is the empty string. *)
Theorem X3_search_type_case_insensitive (catalog : list CarRecord)
    (seats budget : number) (type : string) :
  searchOver catalog seats budget (Str.toLowerCase type)
  = searchOver catalog seats budget type
  /\ (forall c, typeFilter (Str.toLowerCase type) c = true
                <-> type = "" \/ Str.includes (types c)
                                   (Str.toLowerCase type) = true).
Proof.
  split.
  - unfold searchOver. now rewrite toLowerCase_idempotent.
  - intro c. unfold typeFilter.
    rewrite orb_true_iff, isEmpty_toLowerCase.
    destruct type; simpl; intuition discriminate.
Qed.

(* ------------------------------------------------------------------ *)
(** ** More on [pickYearForBudget] *)

Lemma affordable_mono (priceBands : list Q) (b1 b2 : number) (i : nat) :
  (b1 <=? b2) = true ->
  affordable priceBands b1 i = true -> affordable priceBands b2 i = true.
Proof.
  unfold affordable, Num.ge. intros H12 H1.
  eapply NumFacts.le_trans; eassumption.
Qed.

Lemma pickIndexLoop_mono (priceBands : list Q) (b1 b2 : number) (n : nat) :
  (b1 <=? b2) = true ->
  (pickIndexLoop priceBands b1 n <= pickIndexLoop priceBands b2 n)%nat.
Proof.
  intro H12. induction n as [|n IH]; [reflexivity | ].
  cbn [pickIndexLoop].
  destruct (affordable priceBands b2 n) eqn:E2.
  - destruct (affordable priceBands b1 n); [lia | ].
    pose proof (pickIndexLoop_le priceBands b1 n). lia.
  - destruct (affordable priceBands b1 n) eqn:E1; [ | exact IH ].
    rewrite (affordable_mono _ _ _ _ H12 E1) in E2. discriminate.
Qed.

Lemma StronglySorted_nth_error {A : Type} (R : A -> A -> Prop) (l : list A) :
  StronglySorted R l ->
  forall i j a b, (i < j)%nat ->
    nth_error l i = Some a -> nth_error l j = Some b -> R a b.
Proof.
  induction 1 as [|x l Hs IH Hall]; intros i j a b Hij Ha Hb.
  - destruct i; discriminate.
  - destruct j as [|j]; [lia | ]. destruct i as [|i].
    + injection Ha as <-. simpl in Hb. apply nth_error_In in Hb.
      rewrite Forall_forall in Hall. now apply Hall.
    + simpl in Ha, Hb. apply (IH i j); [lia | assumption | assumption].
Qed.

Lemma Sorted_Zle_nth_error (l : list Z) (i j : nat) (a b : Z) :
  Sorted Z.le l -> (i <= j)%nat ->
  nth_error l i = Some a -> nth_error l j = Some b -> (a <= b)%Z.
Proof.
  intros Hs Hij Ha Hb.
  destruct (Nat.eq_dec i j) as [->|Hne].
  - rewrite Ha in Hb. injection Hb as ->. lia.
  - apply Sorted_StronglySorted in Hs; [ | exact Z.le_trans ].
    apply (StronglySorted_nth_error Z.le l Hs i j); [lia | assumption ..].
Qed.

Lemma Sorted_Qle_nth_error (l : list Q) (i j : nat) (a b : Q) :
  Sorted Qle l -> (i <= j)%nat ->
  nth_error l i = Some a -> nth_error l j = Some b -> (a <= b)%Q.
Proof.
  intros Hs Hij Ha Hb.
  destruct (Nat.eq_dec i j) as [->|Hne].
  - rewrite Ha in Hb. injection Hb as ->. apply Qle_refl.
  - apply Sorted_StronglySorted in Hs; [ | exact Qle_trans ].
    apply (StronglySorted_nth_error Qle l Hs i j); [lia | assumption ..].
Qed.

(** X4: with the years of a record in ascending order, a larger budget is
    never given an older year than a smaller one, whatever the order of
    the price bands. *)
Theorem X4_pickYear_monotone (priceBands : list Q) (yearsByBand : list Z)
    (b1 b2 : number) (y1 y2 : Z) :
  Sorted Z.le yearsByBand ->
  (b1 <=? b2) = true ->
  pickYearForBudget priceBands yearsByBand b1 = Some y1 ->
  pickYearForBudget priceBands yearsByBand b2 = Some y2 ->
  (y1 <= y2)%Z.
Proof.
  unfold pickYearForBudget. rewrite !pickYearLoop_index.
  intros Hs H12 H1 H2.
  eapply Sorted_Zle_nth_error; [exact Hs | | exact H1 | exact H2].
  now apply pickIndexLoop_mono.
Qed.

Lemma X4_pickYear_monotone_witness :
  Sorted Z.le [2015; 2018; 2021; 2024]%Z
  /\ (Fin 13000 <=? Fin 30000) = true
  /\ pickYearForBudget [12000; 18000; 25000; 35000]%Q
       [2015; 2018; 2021; 2024]%Z (Fin 13000) = Some 2015%Z
  /\ pickYearForBudget [12000; 18000; 25000; 35000]%Q
       [2015; 2018; 2021; 2024]%Z (Fin 30000) = Some 2021%Z
  /\ (2015 <= 2021)%Z.
Proof.
  assert (Hs : Sorted Z.le [2015; 2018; 2021; 2024]%Z).
  { repeat (apply Sorted_cons || apply Sorted_nil
            || apply HdRel_cons || apply HdRel_nil); discriminate. }
  split; [exact Hs | ].
  split; [reflexivity | ]. split; [reflexivity | ]. split; [reflexivity | ].
  exact (X4_pickYear_monotone [12000; 18000; 25000; 35000]%Q
           [2015; 2018; 2021; 2024]%Z (Fin 13000) (Fin 30000) 2015 2021
           Hs eq_refl eq_refl eq_refl).
Defined.

Lemma lt_Fin_not_affordable (b : number) (q r : Q) :
  (b <? Fin q) = true -> (q <= r)%Q -> (b >=? Fin r) = false.
Proof.
  unfold Num.ge. intros Hlt Hqr.
  destruct b as [| |p|]; try discriminate; try reflexivity.
  apply NumFacts.le_Fin_false. apply NumFacts.lt_Fin in Hlt.
  eapply Qlt_le_trans; eassumption.
Qed.

(** X5: on ascending price bands, a budget from the price of band [i] up to
    but not including the price of the next band gets the year of band
    [i]; from the last band on it gets the last year. *)
Theorem X5_pickYear_band_interval (priceBands : list Q)
    (yearsByBand : list Z) (budget : number) (i : nat) (p : Q) :
  Sorted Qle priceBands ->
  nth_error priceBands i = Some p ->
  (Fin p <=? budget) = true ->
  (forall q, nth_error priceBands (S i) = Some q -> (budget <? Fin q) = true) ->
  pickYearForBudget priceBands yearsByBand budget = nth_error yearsByBand i.
Proof.
  intros Hs Hi Hle Hnext. unfold pickYearForBudget.
  apply pickYearLoop_found.
  - apply nth_error_Some. congruence.
  - unfold affordable. rewrite Hi. exact Hle.
  - intros j [Hij Hj]. unfold affordable.
    destruct (nth_error priceBands j) as [r|] eqn:Ej.
    2:{ apply nth_error_None in Ej. lia. }
    destruct (nth_error priceBands (S i)) as [q|] eqn:En.
    2:{ apply nth_error_None in En. lia. }
    apply (lt_Fin_not_affordable budget q r).
    + now apply Hnext.
    + apply (Sorted_Qle_nth_error priceBands (S i) j); [exact Hs | lia | | ];
        assumption.
Qed.

Lemma X5_pickYear_band_interval_witness :
  Sorted Qle [12000; 18000; 25000; 35000]%Q
  /\ nth_error [12000; 18000; 25000; 35000]%Q 1 = Some 18000%Q
  /\ (Fin 18000 <=? Fin 18000) = true
  /\ pickYearForBudget [12000; 18000; 25000; 35000]%Q
       [2015; 2018; 2021; 2024]%Z (Fin 18000)
     = nth_error [2015; 2018; 2021; 2024]%Z 1.
Proof.
  assert (Hs : Sorted Qle [12000; 18000; 25000; 35000]%Q).
  { repeat (apply Sorted_cons || apply Sorted_nil
            || apply HdRel_cons || apply HdRel_nil); discriminate. }
  split; [exact Hs | ]. split; [reflexivity | ]. split; [reflexivity | ].
  apply (X5_pickYear_band_interval [12000; 18000; 25000; 35000]%Q
           [2015; 2018; 2021; 2024]%Z (Fin 18000) 1 18000%Q Hs);
    [reflexivity | reflexivity | ].
  intros q Hq. injection Hq as <-. reflexivity.
Defined.

(* ------------------------------------------------------------------ *)
(** ** More on [affordabilityScore] and the seat term *)

(** X6: the score is [NaN] exactly when there is no price band or the
    budget is [NaN]; in every other case it is zero or more, never
    negative. *)
Theorem X6_affordabilityScore_NaN_or_nonneg (priceBands : list Q)
    (budget : number) :
  (Num.isNaN (affordabilityScore priceBands budget) = true
   <-> priceBands = [] \/ Num.isNaN budget = true)
  /\ (Num.isNaN (affordabilityScore priceBands budget) = false
      -> (Fin 0 <=? affordabilityScore priceBands budget) = true).
Proof.
  destruct priceBands as [|x xs].
  - split.
    + split; [auto | intros _]. destruct budget; reflexivity.
    + destruct budget; discriminate.
  - destruct (Num.isNaN budget) eqn:Eb.
    + destruct budget; try discriminate. split.
      * split; [auto | reflexivity].
      * rewrite affordabilityScore_cons. discriminate.
    + pose proof (affordabilityScore_nonneg (x :: xs) budget) as Hn.
      assert (Hpos : Num.nonneg (affordabilityScore (x :: xs) budget))
        by (apply Hn; [discriminate | exact Eb]).
      split.
      * rewrite (NumFacts.nonneg_not_NaN _ Hpos).
        split; [discriminate | intros [H|H]; discriminate].
      * intros _. exact Hpos.
Qed.

(** X7: only the first and the last price band enter the score: two
    sequences with the same first and the same last band get the same
    score, whatever bands lie between them. *)
Theorem X7_affordabilityScore_first_last (x z : Q) (xs ys : list Q)
    (budget : number) :
  affordabilityScore (x :: xs ++ [z]) budget
  = affordabilityScore (x :: ys ++ [z]) budget
  /\ affordabilityScore (x :: xs ++ [z]) budget
     = affordabilityScore [x; z] budget.
Proof.
  assert (H : forall l, affordabilityScore (x :: l ++ [z]) budget
                        = affordabilityScore [x; z] budget).
  { intro l. rewrite !affordabilityScore_cons.
    now rewrite last_last. }
  split.
  - now rewrite (H xs), (H ys).
  - apply H.
Qed.

Lemma seatPenalty_bound (wantSeats : number) (c : CarRecord) :
  primarySeatFilter wantSeats c = true ->
  (Fin 0 <=? seatPenalty wantSeats c) = true
  /\ (seatPenalty wantSeats c <? Fin 5000) = true.
Proof.
  intro Hf. destruct wantSeats as [| |q|].
  - discriminate.
  - split; reflexivity.
  - apply primarySeatFilter_Fin in Hf.
    unfold seatPenalty, Num.ofZ, Num.sub. cbn [Num.neg Num.add].
    unfold Num.max.
    destruct (Fin 0 <? Fin (q + - inject_Z (minSeats c))) eqn:E.
    + apply NumFacts.lt_Fin in E. cbn [Num.mul]. split.
      * apply NumFacts.le_Fin. apply Qmult_le_0_compat;
          [now apply Qlt_le_weak | discriminate].
      * apply NumFacts.lt_Fin. lra.
    + split; reflexivity.
  - discriminate.
Qed.

(** X8: a record kept by the seat filter of the primary pass is charged
    less than 5000 for seats (less than one missing seat), whatever number
    of seats is asked for; a record kept by the relaxed pass is charged
    nothing. *)
Theorem X8_seat_term_below_5000 (wantSeats : number) (c : CarRecord) :
  (primarySeatFilter wantSeats c = true ->
   (Fin 0 <=? seatPenalty wantSeats c) = true
   /\ (seatPenalty wantSeats c <? Fin 5000) = true)
  /\ (relaxedSeatFilter wantSeats c = true ->
      Num.same (seatPenalty wantSeats c) (Fin 0)).
Proof.
  split; [apply seatPenalty_bound | ].
  unfold relaxedSeatFilter, Num.ge. intro H.
  destruct wantSeats as [| |q|]; try discriminate.
  - reflexivity.
  - apply NumFacts.le_Fin in H.
    unfold seatPenalty, Num.ofZ, Num.sub. cbn [Num.neg Num.add].
    unfold Num.max.
    assert (E : (Fin 0 <? Fin (q + - inject_Z (minSeats c))) = false).
    { apply NumFacts.lt_Fin_false. lra. }
    rewrite E. reflexivity.
Qed.

(* ------------------------------------------------------------------ *)
(** ** More on the sort *)

Lemma Permutation_insertBy {A : Type} (cmp : A -> A -> number) (x : A)
    (l : list A) :
  Permutation (insertBy cmp x l) (x :: l).
Proof.
  induction l as [|y l IH]; [reflexivity | ].
  rewrite insertBy_cons. destruct (cmp x y >? Fin 0); [ | reflexivity ].
  rewrite IH. apply perm_swap.
Qed.

Lemma Permutation_sortBy {A : Type} (cmp : A -> A -> number) (l : list A) :
  Permutation (sortBy cmp l) l.
Proof.
  induction l as [|x l IH]; [reflexivity | ].
  cbn [sortBy fold_right]. fold (sortBy cmp l).
  rewrite Permutation_insertBy. now constructor.
Qed.

(** X9: sorting only reorders: whatever the comparator answers, the sorted
    array holds the same elements as many times as the array sorted. *)
Theorem X9_sort_permutation {A : Type} (cmp : A -> A -> number)
    (l : list A) :
  Permutation (sortBy cmp l) l.
Proof.
  induction l as [|x l IH].
  - constructor.
  - cbn [sortBy fold_right]. fold (sortBy cmp l).
    transitivity (x :: sortBy cmp l).
    + apply Permutation_insertBy.
    + now apply perm_skip.
Qed.

Lemma filter_insertBy_score (s : number) (x : MatchResult)
    (l : list MatchResult) :
  filter (fun r => Result.score r === s) (insertBy byScore x l)
  = filter (fun r => Result.score r === s) (x :: l).
Proof.
  induction l as [|y l IH]; [reflexivity | ].
  rewrite insertBy_cons. unfold byScore at 1. rewrite NumFacts.sub_gt_zero.
  destruct (Result.score y <? Result.score x) eqn:Elt; [ | reflexivity ].
  cbn [filter] in *. rewrite IH.
  destruct (Result.score x === s) eqn:Ex; [ | reflexivity ].
  assert (Ey : (Result.score y === s) = false).
  { destruct (Result.score y) as [| |p|], (Result.score x) as [| |q|],
      s as [| |t|]; try discriminate; try reflexivity.
    apply NumFacts.lt_Fin in Elt. apply NumFacts.seq_Fin in Ex.
    apply not_true_iff_false. intro Ey. apply NumFacts.seq_Fin in Ey.
    rewrite Ey, <- Ex in Elt. exact (Qlt_irrefl _ Elt). }
  now rewrite Ey.
Qed.

(** X10: the sort by score is stable: the results that share a score come
    out in the order they went in, which is the order of the catalog. *)
Theorem X10_sort_stable (s : number) (l : list MatchResult) :
  filter (fun r => Result.score r === s) (sortBy byScore l)
  = filter (fun r => Result.score r === s) l.
Proof.
  induction l as [|x l IH]; [reflexivity | ].
  cbn [sortBy fold_right]. fold (sortBy byScore l).
  rewrite filter_insertBy_score. cbn [filter]. now rewrite IH.
Qed.

Lemma scoreLe_trans (a b c : MatchResult) :
  scoreLe a b -> scoreLe b c -> scoreLe a c.
Proof. unfold scoreLe. apply NumFacts.le_trans. Qed.

Lemma StronglySorted_app_inv {A : Type} (R : A -> A -> Prop)
    (l1 l2 : list A) :
  StronglySorted R (l1 ++ l2)%list ->
  forall a b, In a l1 -> In b l2 -> R a b.
Proof.
  induction l1 as [|x l1 IH]; intros Hs a b Ha Hb; [destruct Ha | ].
  cbn [app] in Hs. apply StronglySorted_inv in Hs. destruct Hs as [Hs Hall].
  destruct Ha as [<- | Ha].
  - rewrite Forall_forall in Hall. apply Hall. apply in_or_app. now right.
  - now apply IH.
Qed.

(** The five kept are the five best: a candidate left out by the slice
    scores no less than any result kept. *)
Lemma top5_best (l : list MatchResult) (r x : MatchResult) :
  Forall scored l ->
  In r (top5 (sortBy byScore l)) -> In x l ->
  In x (top5 (sortBy byScore l)) \/ scoreLe r x.
Proof.
  intros Hl Hr Hx.
  pose proof (Sorted_sortBy l Hl) as Hs.
  apply Sorted_StronglySorted in Hs; [ | exact scoreLe_trans ].
  apply (Permutation_in x (Permutation_sym (Permutation_sortBy byScore l)))
    in Hx.
  rewrite <- (firstn_skipn 5 (sortBy byScore l)) in Hx, Hs.
  apply in_app_or in Hx. destruct Hx as [Hx | Hx]; [now left | right].
  exact (StronglySorted_app_inv scoreLe _ _ Hs r x Hr Hx).
Qed.

(** X11: the slice keeps the best: in either pass over [CARS], a record
    that passes the filters of the pass is among the results, or scores no
    less than every result returned. *)
Theorem X11_results_are_the_best (seats budget : number) (type : string)
    (c : CarRecord) :
  let wantSeats := Num.orDefault seats (Fin 4) in
  let wantBudget := Num.orDefault budget (Fin 20000) in
  let wantType := Str.toLowerCase type in
  In c CARS ->
  (primarySeatFilter wantSeats c = true -> typeFilter wantType c = true ->
   Forall (fun r =>
     In (primaryResult wantSeats wantBudget c)
        (primaryPass CARS wantSeats wantBudget wantType)
     \/ scoreLe r (primaryResult wantSeats wantBudget c))
     (primaryPass CARS wantSeats wantBudget wantType))
  /\ (relaxedSeatFilter wantSeats c = true ->
      Forall (fun r =>
        In (relaxedResult wantSeats wantBudget c)
           (relaxedPass CARS wantSeats wantBudget)
        \/ scoreLe r (relaxedResult wantSeats wantBudget c))
        (relaxedPass CARS wantSeats wantBudget)).
Proof.
  intros wantSeats wantBudget wantType Hc.
  pose proof catalog_bands_nonempty as Hb. rewrite Forall_forall in Hb.
  pose proof (NumFacts.orDefault_not_NaN seats 4) as Hs.
  pose proof (NumFacts.orDefault_not_NaN budget 20000) as Hbud.
  fold wantSeats in Hs. fold wantBudget in Hbud.
  split.
  - intros Hseat Htype. apply Forall_forall. intros r Hr.
    unfold primaryPass in *. apply top5_best; [ | exact Hr | ].
    + apply Forall_forall. intros x Hx. apply in_map_iff in Hx.
      destruct Hx as (c' & <- & Hc').
      apply filter_In in Hc'. destruct Hc' as [Hc' _].
      apply filter_In in Hc'. destruct Hc' as [Hc' _].
      apply NumFacts.nonneg_not_NaN, primaryResult_scored; auto.
    + apply in_map. apply filter_In. split; [ | exact Htype ].
      apply filter_In. now split.
  - intros Hseat. apply Forall_forall. intros r Hr.
    unfold relaxedPass in *. apply top5_best; [ | exact Hr | ].
    + apply Forall_forall. intros x Hx. apply in_map_iff in Hx.
      destruct Hx as (c' & <- & Hc').
      apply filter_In in Hc'. destruct Hc' as [Hc' _].
      apply NumFacts.nonneg_not_NaN, relaxedResult_scored; auto.
    + apply in_map. apply filter_In. now split.
Qed.

Lemma X11_results_are_the_best_witness :
  let c := mkCar "Porsche 911" 4 ["sport"; "luxury"]
             [45000; 70000; 110000; 180000]%Q [2009; 2014; 2017; 2022] in
  In c CARS
  /\ (relaxedSeatFilter (Num.orDefault (Fin 4) (Fin 4)) c = true ->
      Forall (fun r =>
        In (relaxedResult (Num.orDefault (Fin 4) (Fin 4))
              (Num.orDefault (Fin 20000) (Fin 20000)) c)
           (relaxedPass CARS (Num.orDefault (Fin 4) (Fin 4))
              (Num.orDefault (Fin 20000) (Fin 20000)))
        \/ scoreLe r (relaxedResult (Num.orDefault (Fin 4) (Fin 4))
                        (Num.orDefault (Fin 20000) (Fin 20000)) c))
        (relaxedPass CARS (Num.orDefault (Fin 4) (Fin 4))
           (Num.orDefault (Fin 20000) (Fin 20000)))).
Proof.
  cbv zeta.
  assert (Hc : In (mkCar "Porsche 911" 4 ["sport"; "luxury"]
                     [45000; 70000; 110000; 180000]%Q
                     [2009; 2014; 2017; 2022]) CARS).
  { unfold CARS. do 12 right. left. reflexivity. }
  split; [exact Hc | ].
  exact (proj2 (X11_results_are_the_best (Fin 4) (Fin 20000) ""
                  _ Hc)).
Defined.

(* ------------------------------------------------------------------ *)
(** ** More on the answers of the search *)

Lemma relaxed_filter_primary (wantSeats : number) (c : CarRecord) :
  relaxedSeatFilter wantSeats c = true -> primarySeatFilter wantSeats c = true.
Proof.
  unfold relaxedSeatFilter, primarySeatFilter. intros ->. reflexivity.
Qed.

(** X12: every result of an answer is made from a record of the catalog
    that has more than [seats - 1] seats for the seats wanted (it passes
    the three-condition seat filter); when the answer is not relaxed the
    record also passes the type filter, so with a type asked for each
    result lists that type, in lower case, among its [typeMatches]. *)
Theorem X12_results_from_catalog (catalog : list CarRecord)
    (seats budget : number) (type : string) :
  let wantSeats := Num.orDefault seats (Fin 4) in
  let wantType := Str.toLowerCase type in
  let answer := searchOver catalog seats budget type in
  Forall (fun r =>
    exists c, In c catalog
      /\ Result.model r = model c
      /\ Result.seats r = minSeats c
      /\ Result.typeMatches r = types c
      /\ Result.links r = buildSearchLinks (Result.year r) (model c)
      /\ primarySeatFilter wantSeats c = true
      /\ (relaxed answer = false ->
          typeFilter wantType c = true
          /\ (type <> "" ->
              Str.includes (Result.typeMatches r) wantType = true)))
    (results answer).
Proof.
  intros wantSeats wantType answer. subst answer.
  destruct (results_searchOver catalog seats budget type)
    as [(Hrel & -> & _) | (Hrel & -> & _)];
    rewrite Hrel; apply Forall_forall; intros r Hr.
  - apply In_primaryPass in Hr. destruct Hr as (c & Hc & Hseat & Hty & ->).
    exists c. repeat split; try assumption.
    intro Hne. unfold typeFilter in Hty. fold wantType in Hty.
    apply orb_true_iff in Hty. destruct Hty as [Hty | Hty]; [ | exact Hty ].
    unfold wantType in Hty. rewrite isEmpty_toLowerCase in Hty.
    destruct type; [congruence | discriminate].
  - apply In_relaxedPass in Hr. destruct Hr as (c & Hc & Hseat & ->).
    exists c. repeat split; try assumption; try discriminate.
    now apply relaxed_filter_primary.
Qed.

Lemma NoDup_map_filter {X Y : Type} (key : X -> Y) (keep : X -> bool)
    (xs : list X) (distinct : NoDup (map key xs)) :
  NoDup (map key (filter keep xs)).
Proof.
  induction xs as [|x xs IH]; [constructor | ].
  cbn [map] in distinct. apply NoDup_cons_iff in distinct.
  destruct distinct as [Hx Hxs].
  cbn [filter]. destruct (keep x); [ | now apply IH ].
  cbn [map]. constructor; [ | now apply IH ].
  intro Hin. apply Hx. apply in_map_iff in Hin.
  destruct Hin as (y & Ey & Hy). apply filter_In in Hy.
  apply in_map_iff. exists y. now split.
Qed.

Lemma NoDup_firstn {A : Type} (n : nat) (l : list A) :
  NoDup l -> NoDup (firstn n l).
Proof.
  revert l. induction n as [|n IH]; intros l H; [constructor | ].
  destruct l as [|x l]; [constructor | ].
  apply NoDup_cons_iff in H. destruct H as [Hx Hl].
  cbn [firstn]. constructor; [ | now apply IH ].
  intro Hin. apply Hx. rewrite <- (firstn_skipn n l).
  apply in_or_app. now left.
Qed.

Lemma NoDup_models_pass (f : CarRecord -> MatchResult)
    (l : list CarRecord) :
  (forall c, Result.model (f c) = model c) ->
  NoDup (map model l) ->
  NoDup (map Result.model (top5 (sortBy byScore (map f l)))).
Proof.
  intros Hf Hl. unfold top5. rewrite <- firstn_map. apply NoDup_firstn.
  apply (Permutation_NoDup
           (l := map Result.model (map f l))).
  - apply Permutation_map, Permutation_sym, Permutation_sortBy.
  - rewrite map_map.
    replace (map (fun c => Result.model (f c)) l) with (map model l);
      [exact Hl | ].
    apply map_ext. intro c. now rewrite Hf.
Qed.

(** X13: no model is returned twice: when the models of the catalog are
    pairwise distinct, so are the models of the results of an answer. *)
Theorem X13_results_models_distinct (catalog : list CarRecord)
    (seats budget : number) (type : string) :
  NoDup (map model catalog) ->
  NoDup (map Result.model (results (searchOver catalog seats budget type))).
Proof.
  intro H.
  destruct (results_searchOver catalog seats budget type)
    as [(_ & -> & _) | (_ & -> & _)].
  - unfold primaryPass. apply NoDup_models_pass; [reflexivity | ].
    now apply NoDup_map_filter, NoDup_map_filter.
  - unfold relaxedPass. apply NoDup_models_pass; [reflexivity | ].
    now apply NoDup_map_filter.
Qed.

Lemma catalog_models_distinct : NoDup (map model CARS).
Proof.
  unfold CARS. cbn [map model].
  repeat (apply NoDup_cons; [cbn [In]; intuition discriminate | ]).
  apply NoDup_nil.
Qed.

Lemma X13_results_models_distinct_witness :
  NoDup (map model CARS)
  /\ NoDup (map Result.model
              (results (searchOver CARS (Fin 5) (Fin 30000) "luxury"))).
Proof.
  split; [exact catalog_models_distinct | ].
  exact (X13_results_models_distinct CARS (Fin 5) (Fin 30000) "luxury"
           catalog_models_distinct).
Defined.

Lemma filter_nil_iff {A : Type} (p : A -> bool) (l : list A) :
  filter p l = [] <-> Forall (fun x => p x = false) l.
Proof.
  induction l as [|x l IH]; cbn [filter].
  - split; [constructor | reflexivity].
  - destruct (p x) eqn:E.
    + split; [discriminate | ]. intro H. apply Forall_inv in H. congruence.
    + rewrite IH. split; intro H.
      * now constructor.
      * now apply Forall_inv_tail in H.
Qed.

Lemma relaxedPass_nil_iff (catalog : list CarRecord)
    (wantSeats wantBudget : number) :
  relaxedPass catalog wantSeats wantBudget = []
  <-> Forall (fun c => relaxedSeatFilter wantSeats c = false) catalog.
Proof.
  unfold relaxedPass. rewrite top5_nil_iff, sortBy_nil_iff.
  rewrite <- filter_nil_iff. split; intro H.
  - now apply map_eq_nil in H.
  - now rewrite H.
Qed.

(** X14: an answer without results is always marked relaxed.  For an
    integer number of seats the answer has no results exactly when no
    record of the catalog has that many seats; over [CARS] that is when
    more than 7 seats are asked for, whatever the budget and the type. *)
Theorem X14_empty_answers (catalog : list CarRecord) (z : Z)
    (seats budget : number) (type : string) :
  let w := if (z =? 0)%Z then 4%Z else z in
  (results (searchOver catalog seats budget type) = []
   -> relaxed (searchOver catalog seats budget type) = true)
  /\ (results (searchOver catalog (Num.ofZ z) budget type) = []
      <-> Forall (fun c => (minSeats c < w)%Z) catalog)
  /\ (results (search (Num.ofZ z) budget type) = [] <-> (7 < w)%Z).
Proof.
  intro w.
  assert (Hgen : forall cat,
            results (searchOver cat (Num.ofZ z) budget type) = []
            <-> Forall (fun c => (minSeats c < w)%Z) cat).
  { intro cat.
    assert (Hf : Forall (fun c => relaxedSeatFilter (Num.ofZ w) c = false) cat
                 <-> Forall (fun c => (minSeats c < w)%Z) cat).
    { rewrite !Forall_forall. split; intros H c Hc; specialize (H c Hc).
      - unfold relaxedSeatFilter, Num.ge in H.
        rewrite NumFacts.le_ofZ in H. apply Z.leb_gt in H. exact H.
      - unfold relaxedSeatFilter, Num.ge.
        rewrite NumFacts.le_ofZ. now apply Z.leb_gt. }
    rewrite <- Hf, <- (relaxedPass_nil_iff cat (Num.ofZ w)
                         (Num.orDefault budget (Fin 20000))).
    pose proof (orDefault_ofZ z 4) as Hw. fold w in Hw.
    change (Num.ofZ 4) with (Fin 4) in Hw.
    destruct (results_searchOver cat (Num.ofZ z) budget type)
      as [(_ & E & Hne) | (_ & E & Hp)];
      rewrite Hw in * by discriminate; rewrite E.
    - split; [intro H; rewrite <- E in H; contradiction | ].
      intro H. exfalso. apply Hne. rewrite E.
      apply relaxedPass_nil_iff in H. unfold primaryPass.
      apply top5_nil_iff, sortBy_nil_iff.
      replace (filter (primarySeatFilter (Num.ofZ w)) cat) with (@nil CarRecord);
        [reflexivity | ].
      symmetry. apply filter_nil_iff. rewrite Forall_forall in *.
      intros c Hc. rewrite primarySeatFilter_ofZ. now apply H.
    - reflexivity. }
  split; [ | split ].
  - destruct (results_searchOver catalog seats budget type)
      as [(_ & _ & Hne) | (Hrel & _ & _)]; [contradiction | auto].
  - apply Hgen.
  - unfold search. rewrite Hgen. unfold CARS. split.
    + intro H. apply Forall_inv_tail, Forall_inv_tail, Forall_inv in H.
      exact H.
    + intro H. repeat (apply Forall_cons; [cbn [minSeats]; lia | ]).
      apply Forall_nil.
Qed.

Lemma le_add_10000 (a : number) :
  Num.nonneg a -> (Fin 10000 <=? a + Fin 10000) = true.
Proof.
  unfold Num.nonneg. destruct a as [| |p|]; try discriminate; try reflexivity.
  rewrite NumFacts.le_Fin. intro H. cbn [Num.add]. apply NumFacts.le_Fin. lra.
Qed.

(** X15: over [CARS] every score of a relaxed answer is 10000 or more,
    and every score of any answer is zero or more. *)
Theorem X15_scores_bounds (seats budget : number) (type : string) :
  Forall (fun r =>
    (Fin 0 <=? Result.score r) = true
    /\ (relaxed (search seats budget type) = true ->
        (Fin 10000 <=? Result.score r) = true))
    (results (search seats budget type)).
Proof.
  pose proof catalog_bands_nonempty as Hb. rewrite Forall_forall in Hb.
  pose proof (NumFacts.orDefault_not_NaN seats 4) as Hs.
  pose proof (NumFacts.orDefault_not_NaN budget 20000) as Hbud.
  unfold search.
  destruct (results_searchOver CARS seats budget type)
    as [(Hrel & -> & _) | (Hrel & -> & _)];
    rewrite Hrel; apply Forall_forall; intros r Hr.
  - apply In_primaryPass in Hr. destruct Hr as (c & Hc & _ & _ & ->).
    split; [ | discriminate ].
    apply primaryResult_scored; auto.
  - apply In_relaxedPass in Hr. destruct Hr as (c & Hc & _ & ->).
    split.
    + apply relaxedResult_scored; auto.
    + intros _. cbn [Result.score relaxedResult]. apply le_add_10000.
      apply NumFacts.nonneg_add.
      * apply affordabilityScore_nonneg; auto.
      * now apply seatPenalty_nonneg.
Qed.

(* ------------------------------------------------------------------ *)
(** ** More on the two routes *)

Lemma getOwn_absent (name : string) (members : list (string * value)) :
  hasOwn name members = false -> getOwn name members = VUndefined.
Proof.
  induction members as [|[k v] rest IH]; [reflexivity | ].
  cbn [hasOwn existsb fst]. intro H. apply orb_false_iff in H.
  destruct H as [Hk Hrest]. cbn [getOwn].
  fold (hasOwn name rest) in Hrest. now rewrite Hrest, Hk.
Qed.

(** X16: a body that is no object (absent, [null], a number, a string, an
    array) or an object with none of the members [seats], [budget] and
    [type] is answered as the search for 4 seats, a budget of 20000 and no
    type; the route does not throw on it, whatever else the body holds. *)
Theorem X16_route_default_body {B : Builtins} (body : value) :
  (forall members, body = VObj members ->
     hasOwn "seats" members = false
     /\ hasOwn "budget" members = false
     /\ hasOwn "type" members = false) ->
  searchRoute body = Normal (search (Fin 4) (Fin 20000) "").
Proof.
  intro H.
  assert (Hm : forall name,
            name = "seats" \/ name = "budget" \/ name = "type" ->
            member body name = VUndefined).
  { intros name Hname. unfold member, orElse.
    destruct body as [ | | b | n | s | elems | members]; cbn [truthy];
      try reflexivity.
    - destruct b; reflexivity.
    - destruct (Num.truthy n); reflexivity.
    - destruct (negb (Str.isEmpty s)); reflexivity.
    - destruct (H members eq_refl) as (Hs & Hb & Ht).
      apply getOwn_absent.
      destruct Hname as [-> | [-> | ->]]; assumption. }
  unfold searchRoute, searchRouteOver.
  rewrite (Hm "seats"), (Hm "budget"), (Hm "type") by auto.
  reflexivity.
Qed.

Lemma X16_route_default_body_witness :
  (forall members, VArr [VNum (Fin 7); VStr "suv"] = VObj members ->
     hasOwn "seats" members = false
     /\ hasOwn "budget" members = false
     /\ hasOwn "type" members = false)
  /\ @searchRoute noConversion (VArr [VNum (Fin 7); VStr "suv"])
     = Normal (search (Fin 4) (Fin 20000) "").
Proof.
  assert (H : forall members,
            VArr [VNum (Fin 7); VStr "suv"] = VObj members ->
            hasOwn "seats" members = false
            /\ hasOwn "budget" members = false
            /\ hasOwn "type" members = false)
    by (intros members E; discriminate E).
  split; [exact H | ].
  exact (@X16_route_default_body noConversion
           (VArr [VNum (Fin 7); VStr "suv"]) H).
Defined.

Section ImageFacts.
Context {B : Builtins}.

Lemma imageReply_not_Unavailable (answer : generated) :
  imageReply answer <> Unavailable.
Proof.
  unfold imageReply. destruct answer as [img | shown]; [ | discriminate ].
  destruct (readMember img "data") as [data | e]; [ | discriminate ].
  destruct (truthy _); [ | discriminate ].
  destruct (ToString _); discriminate.
Qed.

(** X17: without a client the [/image] route answers 501 on every body,
    even one whose members do not convert.  With a client it never answers
    501: it answers 200 or 500 when the [year] and [model] members convert
    to strings, and otherwise throws a TypeError while building the prompt,
    before the [try]. *)
Theorem X17_image_route_outcomes (openaiClient : option ImageClient)
    (body : value) :
  match openaiClient with
  | None => imageRoute None body = Normal Unavailable
  | Some client =>
      if coercible (member body "year") && coercible (member body "model")
      then exists reply,
             imageRoute (Some client) body = Normal reply
             /\ (status reply = 200 \/ status reply = 500)
      else imageRoute (Some client) body = Throw TypeError
  end.
Proof.
  destruct openaiClient as [client | ]; [ | reflexivity ].
  unfold imageRoute.
  destruct (coercible (member body "year")) eqn:Ey; cbn [andb].
  - destruct (ToString_total _ Ey) as (sYear & ->). cbn [bind].
    destruct (coercible (member body "model")) eqn:Em.
    + destruct (ToString_total _ Em) as (sModel & ->). cbn [bind].
      eexists. split; [reflexivity | ].
      match goal with |- context [imageReply ?a] =>
        pose proof (imageReply_not_Unavailable a) as Hn;
        destruct (imageReply a) end.
      * contradiction.
      * now left.
      * now right.
    + now rewrite (ToString_throws _ Em).
  - now rewrite (ToString_throws _ Ey).
Qed.

(** X18: the route answers 200 only with what the client resolved: the
    value read at [data[0].b64_json] is truthy and the data URL is the
    fixed prefix followed by that value as a string; a rejection of the
    client, an answer without [data], an empty [data] or an empty
    [b64_json] are answered with 500. *)
Theorem X18_image_reply (answer : generated) (dataUrl : string) :
  (imageReply answer = Image dataUrl
   <-> exists img data s,
         answer = Resolved img
         /\ readMember img "data" = Normal data
         /\ truthy (optMember (firstOf data) "b64_json") = true
         /\ ToString (optMember (firstOf data) "b64_json") = Normal s
         /\ dataUrl = "data:image/png;base64," ++ s)
  /\ (forall shown,
        imageReply (Rejected shown) = Failed (ClientRejected shown))
  /\ imageReply (Resolved (VObj [])) = Failed NoImageReturned
  /\ imageReply (Resolved (VObj [("data", VArr [])])) = Failed NoImageReturned
  /\ imageReply (Resolved (VObj [("data",
                    VArr [VObj [("b64_json", VStr "")]])]))
     = Failed NoImageReturned
  /\ imageReply (Resolved VUndefined) = Failed EngineTypeError.
Proof.
  split; [ | repeat split ].
  unfold imageReply. split.
  - destruct answer as [img | shown]; [ | discriminate ].
    destruct (readMember img "data") as [data | e] eqn:Ed; [ | discriminate ].
    destruct (truthy (optMember (firstOf data) "b64_json")) eqn:Et;
      [ | discriminate ].
    destruct (ToString (optMember (firstOf data) "b64_json")) as [s | e]
      eqn:Es; [ | discriminate ].
    intro H. injection H as <-. exists img, data, s.
    repeat split; assumption || reflexivity.
  - intros (img & data & s & -> & Hd & Ht & Hs & ->).
    now rewrite Hd, Ht, Hs.
Qed.

End ImageFacts.

(* ------------------------------------------------------------------ *)
(** ** The links tell the year and the model *)

Lemma to_int_not_nil (z : Z) :
  Z.to_int z <> Decimal.Pos Decimal.Nil /\ Z.to_int z <> Decimal.Neg Decimal.Nil.
Proof.
  destruct z as [|p|p]; cbn [Z.to_int]; split; intro H;
    try discriminate; injection H as H;
    exact (DecimalPos.Unsigned.to_uint_nonnil p H).
Qed.

Lemma ofZ_inj (a b : Z) : Str.ofZ a = Str.ofZ b -> a = b.
Proof.
  unfold Str.ofZ. intro H.
  apply (f_equal NilZero.int_of_string) in H.
  destruct (to_int_not_nil a) as [Ha1 Ha2].
  destruct (to_int_not_nil b) as [Hb1 Hb2].
  rewrite !NilZero.isi in H by assumption.
  injection H as H. now apply DecimalZ.to_int_inj.
Qed.

Lemma chars_string_of_uint (d : Decimal.uint) :
  forallb signOrDigit (chars (NilEmpty.string_of_uint d)) = true.
Proof.
  induction d; cbn [NilEmpty.string_of_uint chars forallb];
    try rewrite IHd; reflexivity.
Qed.

Lemma chars_ofZ (z : Z) : forallb signOrDigit (chars (Str.ofZ z)) = true.
Proof.
  unfold Str.ofZ, NilZero.string_of_int, NilZero.string_of_uint.
  destruct (Z.to_int z) as [d | d]; destruct d;
    try reflexivity;
    cbn [chars forallb];
    try (rewrite chars_string_of_uint; reflexivity);
    apply (chars_string_of_uint (_ d)).
Qed.

Lemma signOrDigit_not_space (l : list ascii) :
  forallb signOrDigit l = true ->
  forallb (fun c => negb (Ascii.eqb c " ")) l = true.
Proof.
  induction l as [|c l IH]; [reflexivity | ].
  cbn [forallb]. intro H. apply andb_true_iff in H. destruct H as [Hc Hl].
  rewrite (IH Hl), andb_true_r.
  destruct (Ascii.eqb_spec c " ") as [-> | _]; [discriminate | reflexivity].
Qed.

Lemma yearText_no_space (year : option Z) :
  forallb (fun c => negb (Ascii.eqb c " ")) (chars (yearText year)) = true.
Proof.
  destruct year as [y | ]; [ | reflexivity ].
  apply signOrDigit_not_space, chars_ofZ.
Qed.

Lemma yearText_inj (y1 y2 : option Z) :
  yearText y1 = yearText y2 -> y1 = y2.
Proof.
  destruct y1 as [a | ], y2 as [b | ]; cbn [yearText]; intro H.
  - f_equal. now apply ofZ_inj.
  - pose proof (chars_ofZ a) as Hc. rewrite H in Hc. discriminate.
  - pose proof (chars_ofZ b) as Hc. rewrite <- H in Hc. discriminate.
  - reflexivity.
Qed.

Lemma append_inv_head (p a b : string) : p ++ a = p ++ b -> a = b.
Proof.
  induction p as [|c p IH]; [auto | ].
  cbn [append]. intro H. apply String_inj in H. now apply IH.
Qed.

Lemma length_app (a b : string) :
  String.length (a ++ b) = (String.length a + String.length b)%nat.
Proof.
  induction a as [|c a IH]; [reflexivity | ].
  cbn [append String.length]. now rewrite IH.
Qed.

Lemma append_inv_tail (a b s : string) : a ++ s = b ++ s -> a = b.
Proof.
  revert b. induction a as [|c a IH]; intros [|d b] H.
  - reflexivity.
  - apply (f_equal String.length) in H. rewrite !length_app in H.
    cbn [String.length] in H. lia.
  - apply (f_equal String.length) in H. rewrite !length_app in H.
    cbn [String.length] in H. lia.
  - cbn [append] in H. apply String_inj in H. destruct H as [-> H].
    f_equal. now apply IH.
Qed.

Lemma split_at_space (s1 s2 m1 m2 : string) :
  forallb (fun c => negb (Ascii.eqb c " ")) (chars s1) = true ->
  forallb (fun c => negb (Ascii.eqb c " ")) (chars s2) = true ->
  s1 ++ " " ++ m1 = s2 ++ " " ++ m2 -> s1 = s2 /\ m1 = m2.
Proof.
  revert s2. induction s1 as [|c r IH]; intros [|d u] H1 H2 H.
  - cbn [append] in H. apply String_inj in H. now split.
  - cbn [append] in H. apply String_inj in H. destruct H as [<- _].
    discriminate.
  - cbn [append] in H. apply String_inj in H. destruct H as [-> _].
    discriminate.
  - cbn [append] in H. apply String_inj in H. destruct H as [-> H].
    cbn [chars forallb] in H1, H2.
    apply andb_true_iff in H1, H2.
    destruct (IH u (proj2 H1) (proj2 H2) H) as [-> ->]. now split.
Qed.

(** X1: the links tell the year and the model they were built from: two
    calls that give the same Cars.com link (or the same Google link) were
    given the same year and the same model. *)
Theorem X1_links_tell_year_and_model (y1 y2 : option Z) (m1 m2 : string) :
  cars (buildSearchLinks y1 m1) = cars (buildSearchLinks y2 m2)
  \/ google (buildSearchLinks y1 m1) = google (buildSearchLinks y2 m2) ->
  y1 = y2 /\ m1 = m2.
Proof.
  intro H.
  assert (E : Str.encodeURIComponent (yearText y1 ++ " " ++ m1)
              = Str.encodeURIComponent (yearText y2 ++ " " ++ m2)).
  { destruct H as [H | H]; unfold buildSearchLinks in H;
      cbn [cars google] in H; apply append_inv_head in H; [exact H | ].
    now apply append_inv_tail in H. }
  apply encodeURIComponent_inj in E.
  apply split_at_space in E; try apply yearText_no_space.
  destruct E as [Ey Em]. split; [now apply yearText_inj | exact Em].
Qed.

Lemma X1_links_tell_year_and_model_witness :
  (cars (buildSearchLinks (Some 2014%Z) "Tesla Model S")
   = cars (buildSearchLinks (Some 2014%Z) "Tesla Model S")
   \/ google (buildSearchLinks (Some 2014%Z) "Tesla Model S")
      = google (buildSearchLinks (Some 2014%Z) "Tesla Model S"))
  /\ Some 2014%Z = Some 2014%Z /\ "Tesla Model S" = "Tesla Model S".
Proof.
  split; [left; reflexivity | ].
  apply (X1_links_tell_year_and_model (Some 2014%Z) (Some 2014%Z)
           "Tesla Model S" "Tesla Model S").
  left. reflexivity.
Defined.

(** X19: a relaxed answer never holds a record of the type asked for: each
    of its results is made from a record that fails the type filter.  In
    particular, with no type asked for a relaxed answer has no results. *)
Theorem X19_relaxed_results_miss_type (catalog : list CarRecord)
    (seats budget : number) (type : string) :
  let wantSeats := Num.orDefault seats (Fin 4) in
  let wantBudget := Num.orDefault budget (Fin 20000) in
  let answer := searchOver catalog seats budget type in
  relaxed answer = true ->
  Forall (fun r =>
    exists c, In c catalog
      /\ r = relaxedResult wantSeats wantBudget c
      /\ typeFilter (Str.toLowerCase type) c = false)
    (results answer)
  /\ (type = "" -> results answer = []).
Proof.
  intros wantSeats wantBudget answer Hrel. subst answer.
  destruct (results_searchOver catalog seats budget type)
    as [(Hno & _ & _) | (_ & E & Hp)]; [congruence | ].
  fold wantSeats wantBudget in E, Hp.
  assert (Hall : Forall (fun r =>
            exists c, In c catalog
              /\ r = relaxedResult wantSeats wantBudget c
              /\ typeFilter (Str.toLowerCase type) c = false)
            (results (searchOver catalog seats budget type))).
  { rewrite E. apply Forall_forall. intros r Hr.
    apply In_relaxedPass in Hr. destruct Hr as (c & Hc & Hseat & ->).
    exists c. repeat split; [assumption | ].
    destruct (typeFilter (Str.toLowerCase type) c) eqn:Ety; [ | reflexivity ].
    exfalso. unfold primaryPass in Hp.
    apply top5_nil_iff, sortBy_nil_iff, map_eq_nil in Hp.
    assert (Hin : In c (filter (typeFilter (Str.toLowerCase type))
                          (filter (primarySeatFilter wantSeats) catalog))).
    { apply filter_In. split; [ | exact Ety ]. apply filter_In.
      split; [exact Hc | now apply relaxed_filter_primary]. }
    rewrite Hp in Hin. destruct Hin. }
  split; [exact Hall | ].
  intros ->. destruct (results (searchOver catalog seats budget ""))
    as [|r rs]; [reflexivity | ].
  apply Forall_inv in Hall. destruct Hall as (c & _ & _ & Hty).
  discriminate Hty.
Qed.

Lemma X19_relaxed_results_miss_type_witness :
  relaxed (searchOver CARS (Fin 5) (Fin 30000) "hovercar") = true
  /\ Forall (fun r =>
       exists c, In c CARS
         /\ r = relaxedResult (Num.orDefault (Fin 5) (Fin 4))
                  (Num.orDefault (Fin 30000) (Fin 20000)) c
         /\ typeFilter (Str.toLowerCase "hovercar") c = false)
       (results (searchOver CARS (Fin 5) (Fin 30000) "hovercar")).
Proof.
  assert (H : relaxed (searchOver CARS (Fin 5) (Fin 30000) "hovercar") = true)
    by reflexivity.
  split; [exact H | ].
  exact (proj1 (X19_relaxed_results_miss_type CARS (Fin 5) (Fin 30000)
                  "hovercar" H)).
Defined.

(* ------------------------------------------------------------------ *)
(** ** The fallback, restated *)





